(** * MDVM-FuncApp: a shallow embedding of [function_app.py]

    The Azure function [getMDVMData] obtains a bearer token through a small
    token cache, walks the paginated vulnerability API and optionally regroups
    the flat record list as osPlatform -> deviceName -> cveId.

    The file has two parts.  Part I embeds the Python code: JSON values and the
    Python builtins the code relies on, insertion-ordered dictionaries, the
    reorganizer, the parameter handling of the entry point, the retry
    configuration of the HTTP session, the token cache and the page loop.
    Part II states and proves the properties of these definitions.

    Modelling conventions.
    - A Python [str] is a [string]; [int] is [Z]; a finite JSON number with a
      fraction or an exponent is carried by its exact rational value (NaN and
      the infinities, which RFC 8259 has not, are left out).
    - A raised exception is a value of [exn]; a function that may raise
      returns a [result].
    - [time.time()] readings are rationals; float rounding is not modelled.
    - The two [with _token_lock] blocks only matter under concurrency; the
      model is sequential. *)

From Stdlib Require Import ZArith QArith String Ascii List Bool Lia Lqa DecimalString.
From stdpp Require Import gmap strings.
Import ListNotations.

#[local] Set Warnings "-register-all".
#[local] Open Scope string_scope.
#[local] Open Scope list_scope.

(* ===================================================================== *)
(** * Part I.  The embedding                                              *)
(* ===================================================================== *)

(** ** Exceptions and results *)

Inductive exn : Type :=
| RuntimeError (msg : string)
| ValueError
| TypeError
| AttributeError
| KeyError.

Inductive result (A : Type) : Type :=
| Ok (a : A)
| Raise (e : exn).

Arguments Ok {A} a.
Arguments Raise {A} e.

Definition bind {A B : Type} (r : result A) (k : A -> result B) : result B :=
  match r with
  | Ok a => k a
  | Raise e => Raise e
  end.

Notation "'let*' x ':=' r 'in' k" := (bind r (fun x => k))
  (at level 10, x name, r at level 100, k at level 200).

(** ** JSON values and the Python builtins applied to them *)

Module Py.

Inductive json : Type :=
| JNull
| JBool (b : bool)
| JInt (n : Z)
| JFloat (q : Q)
| JStr (s : string)
| JArr (items : list json)
| JObj (fields : list (string * json)).

(** [bool(x)]: the truth value Python gives to a decoded JSON value. *)
Definition py_bool (x : json) : bool :=
  match x with
  | JNull => false
  | JBool b => b
  | JInt n => negb (n =? 0)%Z
  | JFloat q => negb (Qeq_bool q 0)
  | JStr s => negb (String.eqb s "")
  | JArr items => match items with [] => false | _ :: _ => true end
  | JObj fields => match fields with [] => false | _ :: _ => true end
  end.

(** [d.get(key)] on a decoded JSON object.  [fields] lists the items of the
    dict in insertion order; the decoder leaves one item per key. *)
Fixpoint dict_get (fields : list (string * json)) (key : string) : option json :=
  match fields with
  | [] => None
  | (k, v) :: rest => if String.eqb k key then Some v else dict_get rest key
  end.

(** [d.get(key, dflt)]. *)
Definition dict_get_or (fields : list (string * json)) (key : string) (dflt : json) : json :=
  match dict_get fields key with
  | Some v => v
  | None => dflt
  end.

(** [hash(x)] succeeds: lists and dicts are unhashable, scalars are not. *)
Definition hashable (x : json) : bool :=
  match x with
  | JArr _ | JObj _ => false
  | _ => true
  end.

(** The numeric value under which [bool], [int] and [float] compare. *)
Definition num_of (x : json) : option Q :=
  match x with
  | JBool b => Some (if b then 1 else 0)%Q
  | JInt n => Some (inject_Z n)
  | JFloat q => Some q
  | _ => None
  end.

(** [a == b] between two dict keys: strings by content, [None] with itself,
    numbers (booleans included) by value, everything else different. *)
Definition key_eqb (a b : json) : bool :=
  match a, b with
  | JStr s, JStr t => String.eqb s t
  | JNull, JNull => true
  | _, _ =>
      match num_of a, num_of b with
      | Some x, Some y => Qeq_bool x y
      | _, _ => false
      end
  end.

(** [str(n)] for an [int]. *)
Definition str_of_int (n : Z) : string := NilZero.string_of_int (Z.to_int n).

(** What iterating over a value yields ([list.extend(x)]): the items of a
    list, the one-character strings of a string, the keys of a dict; the other
    values are not iterable. *)
Definition py_iter (x : json) : option (list json) :=
  match x with
  | JArr items => Some items
  | JStr s => Some (map (fun c => JStr (String c EmptyString)) (list_ascii_of_string s))
  | JObj fields => Some (map (fun kv => JStr (fst kv)) fields)
  | _ => None
  end.

Section Format.
(** [repr] of a float, a list or a dict is the interpreter's business; the
    model takes it as given. *)
Variable py_repr : json -> string.

(** [format(x, "")], what an f-string field [{x}] expands to. *)
Definition py_format (x : json) : string :=
  match x with
  | JStr s => s
  | JInt n => str_of_int n
  | JBool true => "True"
  | JBool false => "False"
  | JNull => "None"
  | _ => py_repr x
  end.
End Format.

(** [s.lower()] on ASCII letters. *)
Definition lower_ascii (c : ascii) : ascii :=
  let n := nat_of_ascii c in
  if (65 <=? n)%nat && (n <=? 90)%nat then ascii_of_nat (n + 32) else c.

Definition str_lower (s : string) : string :=
  string_of_list_ascii (map lower_ascii (list_ascii_of_string s)).

Definition str_upper_ascii (c : ascii) : ascii :=
  let n := nat_of_ascii c in
  if (97 <=? n)%nat && (n <=? 122)%nat then ascii_of_nat (n - 32) else c.

Definition str_upper (s : string) : string :=
  string_of_list_ascii (map str_upper_ascii (list_ascii_of_string s)).

(** [int(s)] in base 10 on ASCII text: surrounding whitespace is dropped, one
    sign is allowed, the digits may be separated by single underscores, and
    a text of more than [int_max_str_digits] digits is refused. *)
Definition is_space (c : ascii) : bool :=
  let n := nat_of_ascii c in
  ((9 <=? n)%nat && (n <=? 13)%nat) || (n =? 32)%nat.

Definition int_max_str_digits : nat := 4300.

Fixpoint lstrip (l : list ascii) : list ascii :=
  match l with
  | c :: rest => if is_space c then lstrip rest else l
  | [] => []
  end.

Definition strip (l : list ascii) : list ascii := rev (lstrip (rev (lstrip l))).

Definition digit_val (c : ascii) : option Z :=
  let n := nat_of_ascii c in
  if (48 <=? n)%nat && (n <=? 57)%nat then Some (Z.of_nat (n - 48)) else None.

Fixpoint digits_value (acc : Z) (after_digit : bool) (l : list ascii) : option Z :=
  match l with
  | [] => if after_digit then Some acc else None
  | c :: rest =>
      match digit_val c with
      | Some d => digits_value (10 * acc + d)%Z true rest
      | None =>
          if Ascii.eqb c "_"%char && after_digit
          then digits_value acc false rest
          else None
      end
  end.

Definition digit_count (l : list ascii) : nat :=
  length (List.filter (fun c => match digit_val c with Some _ => true | None => false end) l).

Definition py_int (s : string) : result Z :=
  let text := strip (list_ascii_of_string s) in
  let signed :=
    match text with
    | c :: rest =>
        if Ascii.eqb c "-"%char then option_map Z.opp (digits_value 0 false rest)
        else if Ascii.eqb c "+"%char then digits_value 0 false rest
        else digits_value 0 false text
    | [] => None
    end in
  match signed with
  | Some n =>
      if (int_max_str_digits <? digit_count text)%nat then Raise ValueError else Ok n
  | None => Raise ValueError
  end.

End Py.

Import Py.

(** ** Python dictionaries keyed by JSON scalars

    A [dict] keeps its items in insertion order and compares keys with [==].
    Assigning to a key that is already there replaces the value and leaves the
    stored key object and its position alone. *)

Module PyDict.

Section Dict.
Context {V : Type}.

(** [d.get(k)] *)
Fixpoint get (d : list (json * V)) (k : json) : option V :=
  match d with
  | [] => None
  | (k', v) :: rest => if key_eqb k' k then Some v else get rest k
  end.

(** [d[k] = v] *)
Fixpoint set (d : list (json * V)) (k : json) (v : V) : list (json * V) :=
  match d with
  | [] => [(k, v)]
  | (k', v') :: rest =>
      if key_eqb k' k then (k', v) :: rest else (k', v') :: set rest k v
  end.

(** The values stored under a key equal to [k], in storage order. *)
Definition select (d : list (json * V)) (k : json) : list V :=
  map snd (List.filter (fun kv => key_eqb (fst kv) k) d).

(** No two stored keys are equal. *)
Definition unique (d : list (json * V)) : Prop :=
  forall k, (length (select d k) <= 1)%nat.
End Dict.

End PyDict.

(** ** [_reorganize_vulnerabilities_by_hierarchy] *)

Module Reorganizer.

Section WithRepr.
Variable py_repr : json -> string.

(** osPlatform -> deviceName -> cveId -> vulnerability *)
Definition hierarchy := list (json * list (json * list (json * json))).

(** The value bound to [cve_id] when line 135 is reached. *)
Definition vulnerability_key (vuln : list (string * json)) : json :=
  let cve_id := dict_get_or vuln "cveId" JNull in
  if negb (py_bool cve_id) then
    let software_name := dict_get_or vuln "softwareName" (JStr "Unknown") in
    let software_version := dict_get_or vuln "softwareVersion" (JStr "Unknown") in
    JStr (py_format py_repr software_name +:+ "_" +:+ py_format py_repr software_version)
  else cve_id.

(** The three keys under which a record is filed. *)
Definition record_path (vuln : list (string * json)) : json * json * json :=
  (dict_get_or vuln "osPlatform" (JStr "Unknown"),
   dict_get_or vuln "deviceName" (JStr "Unknown"),
   vulnerability_key vuln).

(** The dicts that [reorganized.setdefault(p, {})] and
    [devices.setdefault(d, {})] return: the one stored under the key, or a new
    empty one, which the assignments that follow put in place. *)
Definition devices_of (h : hierarchy) (p : json) : list (json * list (json * json)) :=
  match PyDict.get h p with Some x => x | None => [] end.

Definition cves_of (devices : list (json * list (json * json))) (d : json)
  : list (json * json) :=
  match PyDict.get devices d with Some c => c | None => [] end.

(** One turn of the [for] loop.  [vuln.get] needs a dict; each of the two
    [setdefault] calls and the final item assignment hashes its key.  The
    inner dicts are shared objects changed in place: the assignment to the
    innermost one shows in the outer ones, which the nested [set] writes
    out. *)
Definition reorganize_step (reorganized : hierarchy) (vuln : json) : result hierarchy :=
  match vuln with
  | JObj fields =>
      let '(os_platform, device_name, cve_id) := record_path fields in
      if negb (hashable os_platform) then Raise TypeError else
      let devices := devices_of reorganized os_platform in
      if negb (hashable device_name) then Raise TypeError else
      let cves := cves_of devices device_name in
      if negb (hashable cve_id) then Raise TypeError else
      Ok (PyDict.set reorganized os_platform
            (PyDict.set devices device_name
               (PyDict.set cves cve_id vuln)))
  | _ => Raise AttributeError
  end.

Fixpoint reorganize_from (reorganized : hierarchy) (vulnerabilities : list json)
  : result hierarchy :=
  match vulnerabilities with
  | [] => Ok reorganized
  | vuln :: rest =>
      let* reorganized' := reorganize_step reorganized vuln in
      reorganize_from reorganized' rest
  end.

Definition _reorganize_vulnerabilities_by_hierarchy (vulnerabilities : list json)
  : result hierarchy :=
  reorganize_from [] vulnerabilities.

(** *** Vocabulary of the reorganizer's properties *)

Definition path_eqb (a b : json * json * json) : bool :=
  let '(p, d, k) := a in
  let '(p', d', k') := b in
  key_eqb p p' && key_eqb d d' && key_eqb k k'.

(** Is [vuln] a record filed under [path]? *)
Definition filed_under (path : json * json * json) (vuln : json) : bool :=
  match vuln with
  | JObj fields => path_eqb (record_path fields) path
  | _ => false
  end.

(** The last record of the input filed under [path]. *)
Definition last_filed (vulnerabilities : list json) (path : json * json * json)
  : option json :=
  fold_left (fun found vuln => if filed_under path vuln then Some vuln else found)
            vulnerabilities None.

(** Every entry of the hierarchy reachable by keys equal to those of [path]. *)
Definition entries_at (h : hierarchy) (path : json * json * json) : list json :=
  let '(p, d, k) := path in
  flat_map (fun devices =>
              flat_map (fun cves => PyDict.select cves k) (PyDict.select devices d))
           (PyDict.select h p).

(** Every level of the hierarchy is a dict. *)
Definition wf_devices (devices : list (json * list (json * json))) : Prop :=
  PyDict.unique devices /\ Forall (fun dc => PyDict.unique (snd dc)) devices.

Definition wf_hierarchy (h : hierarchy) : Prop :=
  PyDict.unique h /\ Forall (fun pd => wf_devices (snd pd)) h.

(** One component of the synthesized key: the field as an f-string prints
    it, or the literal placeholder when the record has no such field. *)
Definition software_component (vuln : list (string * json)) (field : string) : string :=
  match dict_get vuln field with
  | Some v => py_format py_repr v
  | None => "Unknown"
  end.

Definition synthesized_key (vuln : list (string * json)) : string :=
  software_component vuln "softwareName" +:+ "_" +:+
  software_component vuln "softwareVersion".

(** A record as the data model has it: a mapping whose three key fields are
    scalars. *)
Definition well_typed_record (vuln : json) : bool :=
  match vuln with
  | JObj fields =>
      let '(p, d, k) := record_path fields in
      hashable p && hashable d && hashable k
  | _ => false
  end.
End WithRepr.

(** *** Sample records *)

Definition no_repr (_ : json) : string := "".

Definition desk1_first : json :=
  JObj [("osPlatform", JStr "Windows10"); ("deviceName", JStr "DESK-1");
        ("cveId", JStr "CVE-1"); ("severity", JStr "Low")].

Definition desk1_second : json :=
  JObj [("osPlatform", JStr "Windows10"); ("deviceName", JStr "DESK-1");
        ("cveId", JStr "CVE-1"); ("severity", JStr "High")].


Definition zero_id_fields : list (string * json) :=
  [("osPlatform", JStr "Linux"); ("deviceName", JStr "srv-7"); ("cveId", JInt 0);
   ("softwareName", JStr "openssl"); ("softwareVersion", JStr "3.0.2")].

End Reorganizer.

(** ** Parameter handling of [getMDVMData] (lines 229-232) *)

Module EntryPoint.

Definition DEFAULT_PAGE_SIZE : Z := 10.
Definition DEFAULT_MAX_PAGES : Z := 5.
Definition MAX_PAGE_SIZE : Z := 200000.
Definition MAX_PAGES_LIMIT : Z := 0.

Record parameters : Type := {
  page_size : Z;
  max_pages : Z;
  reorganize : bool
}.

(** The [try] block.  [req.params] maps query parameter names to their text;
    a [ValueError] of [int] is what the [except] clause turns into the 400
    response. *)
Definition request_parameters (params : gmap string string) : result parameters :=
  let* page_size_input :=
    py_int (default (str_of_int DEFAULT_PAGE_SIZE) (params !! "pageSize")) in
  let page_size := Z.min (Z.max page_size_input 1) MAX_PAGE_SIZE in
  let* max_pages_parsed :=
    py_int (default (str_of_int DEFAULT_MAX_PAGES) (params !! "maxPages")) in
  let max_pages_input := Z.max max_pages_parsed 0 in
  let max_pages :=
    if (0 <? MAX_PAGES_LIMIT)%Z then Z.min max_pages_input MAX_PAGES_LIMIT
    else max_pages_input in
  let reorganize :=
    existsb (String.eqb (str_lower (default "true" (params !! "reorganize"))))
            ["true"; "1"; "yes"; "on"] in
  Ok {| page_size := page_size; max_pages := max_pages; reorganize := reorganize |}.

(** The texts handed to [int]: the parameter, or the default when the query
    has none. *)
Definition page_size_text (params : gmap string string) : string :=
  default (str_of_int DEFAULT_PAGE_SIZE) (params !! "pageSize").

Definition max_pages_text (params : gmap string string) : string :=
  default (str_of_int DEFAULT_MAX_PAGES) (params !! "maxPages").

(** Status code of the response when validation fails. *)
Definition validation_status (r : result parameters) : option Z :=
  match r with
  | Raise ValueError => Some 400%Z
  | _ => None
  end.

End EntryPoint.

(** ** HTTP responses *)

(** A response as the session sees it: status line, headers, and the value
    [json()] decodes the body to.  (Bodies that do not decode are left out.) *)
Record response : Type := {
  status_code : Z;
  response_headers : list (string * string);
  body : json
}.

(** [response.headers.get(name)]: header names compare without case. *)
Fixpoint header_get (headers : list (string * string)) (name : string) : option string :=
  match headers with
  | [] => None
  | (k, v) :: rest =>
      if String.eqb (str_lower k) (str_lower name) then Some v
      else header_get rest name
  end.

(** What a call through the session, followed by [raise_for_status()] and
    [json()], comes to for the caller: an [HTTPError] carrying the response,
    another [RequestException], or the decoded body. *)
Inductive http_outcome : Type :=
| HttpError (r : response)
| RequestFailed
| Success (payload : json).

(** ** The retry policy mounted on the HTTP session (lines 22-46)

    [Retry] is urllib3's class and [HTTPAdapter] is requests'.  What they do
    with the settings of lines 27-32 is the libraries' documented behaviour:
    a response is retried when the request method, upper-cased, is one of
    [allowed_methods] and the status is in [status_forcelist], or when
    retries remain and the response carries a Retry-After header with status
    413, 429 or 503; [total] is the number of retries, so at most [total + 1]
    requests go out; when a response would be retried and no retry is left,
    urllib3 raises [MaxRetryError] ([raise_on_status] is left at its default),
    which requests hands to the caller as [RetryError], a [RequestException]
    that is not an [HTTPError].  Waiting between the attempts
    ([backoff_factor]) takes time and sends nothing; redirects are not
    followed in the model. *)

Module Transport.

Record Retry : Type := {
  total : nat;
  backoff_factor : Z;
  status_forcelist : list Z;
  allowed_methods : list string
}.

Definition retry_strategy : Retry := {|
  total := 3;
  backoff_factor := 1;
  status_forcelist := [429; 500; 502; 503; 504]%Z;
  allowed_methods := ["GET"; "POST"]
|}.

Definition RETRY_AFTER_STATUS_CODES : list Z := [413; 429; 503]%Z.

Definition mem_Z (x : Z) (l : list Z) : bool := existsb (Z.eqb x) l.

(** An empty [allowed_methods] allows every method. *)
Definition is_method_retryable (r : Retry) (method : string) : bool :=
  match allowed_methods r with
  | [] => true
  | methods => existsb (String.eqb (str_upper method)) methods
  end.

(** [remaining] is the retry budget left when the response arrives. *)
Definition is_retry (r : Retry) (remaining : nat) (method : string)
           (status : Z) (has_retry_after : bool) : bool :=
  is_method_retryable r method &&
  (mem_Z status (status_forcelist r)
   || (negb (remaining =? 0)%nat && has_retry_after
       && mem_Z status RETRY_AFTER_STATUS_CODES)).

(** [bool(response.headers.get("Retry-After"))] *)
Definition has_retry_after (resp : response) : bool :=
  match header_get (response_headers resp) "Retry-After" with
  | Some v => negb (String.eqb v "")
  | None => false
  end.

(** What the adapter hands back. *)
Inductive delivery : Type :=
| Delivered (resp : response)
| MaxRetryError.

(** The endpoint, as seen from the session: its answer to the [n]-th
    transmission of the request. *)
Definition endpoint := nat -> response.

(** Sends the request and retries while the policy says so.  Returns the
    number of transmissions so far and what is handed back. *)
Fixpoint urlopen (r : Retry) (remaining : nat) (method : string)
         (server : endpoint) (sent : nat) : nat * delivery :=
  let resp := server sent in
  if is_retry r remaining method (status_code resp) (has_retry_after resp) then
    match remaining with
    | O => (S sent, MaxRetryError)
    | S remaining' => urlopen r remaining' method server (S sent)
    end
  else (S sent, Delivered resp).

(** [_http_session.request(method, ...)]: transmissions and delivery. *)
Definition session_request (method : string) (server : endpoint) : nat * delivery :=
  urlopen retry_strategy (total retry_strategy) method server 0.

(** The call as the two callers make it: [_http_session.get/post(...)],
    then [raise_for_status()], then [json()]. *)
Definition session_call (method : string) (server : endpoint) : http_outcome :=
  match snd (session_request method server) with
  | MaxRetryError => RequestFailed
  | Delivered resp =>
      if (400 <=? status_code resp)%Z && (status_code resp <? 600)%Z
      then HttpError resp
      else Success (body resp)
  end.

(** *** Sample endpoints *)

Definition answer (status : Z) (hdrs : list (string * string)) : response :=
  {| status_code := status; response_headers := hdrs; body := JNull |}.


(** A data endpoint that answers 429 to every request, asking for 45 seconds. *)
Definition always_429 : endpoint := fun _ => answer 429 [("Retry-After", "45")].

End Transport.

(** ** [_fetch_aad_token] and [_get_cached_token] *)

Module TokenCache.

Record token_entry : Type := {
  token : json;
  expires_at : Q
}.

Record token_request : Type := {
  token_url : string;
  data : list (string * string)
}.

(** The surroundings of a call: the clock and the identity provider, which
    answers a request knowing the requests it has seen before. *)
Record env : Type := {
  clock : nat -> Q;
  identity_provider : list token_request -> token_request -> http_outcome
}.

(** The process state: [_token_cache], how often the clock was read, and the
    token requests posted so far. *)
Record state : Type := {
  token_cache : gmap string token_entry;
  clock_reads : nat;
  token_requests : list token_request
}.

Definition time_time (e : env) (st : state) : Q * state :=
  (clock e (clock_reads st),
   {| token_cache := token_cache st;
      clock_reads := S (clock_reads st);
      token_requests := token_requests st |}).

Definition _fetch_aad_token (e : env)
           (tenant_id client_id client_secret resource_app_id_uri : string)
           (st : state) : result json * state :=
  let request := {|
    token_url := "https://login.microsoftonline.com/" +:+ tenant_id +:+ "/oauth2/token";
    data := [("resource", resource_app_id_uri); ("client_id", client_id);
             ("client_secret", client_secret); ("grant_type", "client_credentials")]
  |} in
  let st' := {| token_cache := token_cache st;
                clock_reads := clock_reads st;
                token_requests := token_requests st ++ [request] |} in
  match identity_provider e (token_requests st) request with
  | HttpError _ =>
      (Raise (RuntimeError "Failed to retrieve Entra ID token due to HTTP error."), st')
  | RequestFailed =>
      (Raise (RuntimeError "Failed to retrieve Entra ID token due to connection error."), st')
  | Success (JObj payload) =>
      match dict_get payload "access_token" with
      | Some access_token => (Ok access_token, st')
      | None => (Raise (RuntimeError "Failed to parse Entra ID token response."), st')
      end
  | Success _ => (Raise TypeError, st')
  end.

(** [a > b] on clock values. *)
Definition Qgt_bool (a b : Q) : bool := negb (Qle_bool a b).

(** The key of line 94. *)
Definition cache_key_of (tenant_id client_id resource_app_id_uri : string) : string :=
  tenant_id +:+ ":" +:+ client_id +:+ ":" +:+ resource_app_id_uri.

Definition _get_cached_token (e : env)
           (tenant_id client_id client_secret resource_app_id_uri : string)
           (st : state) : result json * state :=
  let cache_key := cache_key_of tenant_id client_id resource_app_id_uri in
  let refresh (st0 : state) : result json * state :=
    let '(fetched, st1) :=
      _fetch_aad_token e tenant_id client_id client_secret resource_app_id_uri st0 in
    match fetched with
    | Raise err => (Raise err, st1)
    | Ok tok =>
        let '(now, st2) := time_time e st1 in
        (Ok tok,
         {| token_cache :=
              <[cache_key := {| token := tok; expires_at := now + 3600 |}]> (token_cache st2);
            clock_reads := clock_reads st2;
            token_requests := token_requests st2 |})
    end in
  match token_cache st !! cache_key with
  | Some cached_entry =>
      let '(now, st1) := time_time e st in
      if Qgt_bool (expires_at cached_entry) (now + 300)
      then (Ok (token cached_entry), st1)
      else refresh st1
  | None => refresh st
  end.

(** *** A sample run: a provider that issues [tok-1], a clock that advances
    ten seconds per reading, an empty cache. *)

Definition sample_env : env := {|
  clock := fun n => inject_Z (1000 + 10 * Z.of_nat n);
  identity_provider := fun _ _ => Success (JObj [("access_token", JStr "tok-1")])
|}.

Definition empty_state : state := {|
  token_cache := ∅;
  clock_reads := 0;
  token_requests := []
|}.

End TokenCache.

(** ** [_fetch_mdvm_vulnerabilities] *)

Module Fetcher.

Record get_request : Type := {
  url : json;
  headers : list (string * string)
}.

(** The data API behind the session: the outcome of a GET, knowing the GETs
    issued before it in this call. *)
Definition source := list get_request -> get_request -> http_outcome.

(** The variables of the [while] loop, with the GETs issued so far. *)
Record loop_state : Type := {
  all_vulnerabilities : list json;
  current_url : json;
  pages_fetched : nat;
  requests : list get_request
}.

(** The returned dict; [fetch_duration_seconds], a difference of two clock
    readings, is left out. *)
Record fetch_result : Type := {
  vulnerabilities : list json;
  total_count : nat;
  result_pages_fetched : nat;
  has_more_data : bool
}.

Definition base_url : string :=
  "https://api.securitycenter.microsoft.com/api/machines/SoftwareVulnerabilitiesByMachine".

Definition request_headers (access_token : string) : list (string * string) :=
  [("Authorization", "Bearer " +:+ access_token);
   ("Content-Type", "application/json");
   ("User-Agent", "MDVM-FuncApp/1.0")].

Definition initial_state (page_size : Z) : loop_state := {|
  all_vulnerabilities := [];
  current_url := JStr (base_url +:+ "?pageSize=" +:+ str_of_int page_size);
  pages_fetched := 0;
  requests := []
|}.

(** The condition of the [while] at line 156. *)
Definition loop_test (max_pages : Z) (st : loop_state) : bool :=
  py_bool (current_url st)
  && ((max_pages =? 0)%Z || (Z.of_nat (pages_fetched st) <? max_pages)%Z).

(** The [except HTTPError] clause, lines 182-202. *)
Definition http_error_message (resp : response) : string :=
  let status_code := status_code resp in
  let error_msg := "API request failed with status " +:+ str_of_int status_code in
  if (status_code =? 401)%Z then
    "Authentication failed. Token may be invalid or expired."
  else if (status_code =? 403)%Z then
    "Access denied. Check API permissions."
  else if (status_code =? 429)%Z then
    let retry_after := default "60" (header_get (response_headers resp) "Retry-After") in
    "Rate limit exceeded. Please retry after " +:+ retry_after +:+ " seconds."
  else if (500 <=? status_code)%Z && (status_code <? 600)%Z then
    "MDVM API server error: " +:+ error_msg
  else
    "API request failed: " +:+ error_msg.

Definition next_request (hdrs : list (string * string)) (st : loop_state) : get_request :=
  {| url := current_url st; headers := hdrs |}.

(** The body of the loop, lines 157-206. *)
Definition fetch_page (api : source) (hdrs : list (string * string)) (st : loop_state)
  : result loop_state :=
  let request := next_request hdrs st in
  match api (requests st) request with
  | HttpError resp => Raise (RuntimeError (http_error_message resp))
  | RequestFailed => Raise (RuntimeError "Failed to connect to MDVM API.")
  | Success (JObj response_data) =>
      match py_iter (dict_get_or response_data "value" (JArr [])) with
      | Some page =>
          Ok {| all_vulnerabilities := all_vulnerabilities st ++ page;
                current_url := dict_get_or response_data "@odata.nextLink" JNull;
                pages_fetched := S (pages_fetched st);
                requests := requests st ++ [request] |}
      | None => Raise TypeError
      end
  | Success _ => Raise AttributeError
  end.

(** The loop.  [None]: the fuel ran out before the loop came to an end. *)
Fixpoint fetch_loop (fuel : nat) (api : source) (hdrs : list (string * string))
         (max_pages : Z) (st : loop_state) : option (result loop_state) :=
  if loop_test max_pages st then
    match fuel with
    | O => None
    | S fuel' =>
        match fetch_page api hdrs st with
        | Ok st' => fetch_loop fuel' api hdrs max_pages st'
        | Raise err => Some (Raise err)
        end
    end
  else Some (Ok st).

Definition result_of (st : loop_state) : fetch_result := {|
  vulnerabilities := all_vulnerabilities st;
  total_count := length (all_vulnerabilities st);
  result_pages_fetched := pages_fetched st;
  has_more_data := py_bool (current_url st)
|}.

(** The run of the loop from the initial state. *)
Definition fetch_run (fuel : nat) (api : source) (access_token : string)
           (page_size max_pages : Z) : option (result loop_state) :=
  fetch_loop fuel api (request_headers access_token) max_pages (initial_state page_size).

Definition _fetch_mdvm_vulnerabilities (fuel : nat) (api : source) (access_token : string)
           (page_size max_pages : Z) : option (result fetch_result) :=
  match fetch_run fuel api access_token page_size max_pages with
  | Some (Ok st) => Some (Ok (result_of st))
  | Some (Raise err) => Some (Raise err)
  | None => None
  end.

(** *** Vocabulary of the fetcher's properties *)

(** The continuation cursor a page body carries ([None] when it has none). *)
Definition next_link (response_data : list (string * json)) : json :=
  dict_get_or response_data "@odata.nextLink" JNull.

(** What the source serves for [cursor] after the GETs in [log]: the records
    of the page and the cursor that follows, when the answer is a page. *)
Definition page_at (api : source) (hdrs : list (string * string))
           (log : list get_request) (cursor : json) : option (list json * json) :=
  match api log {| url := cursor; headers := hdrs |} with
  | Success (JObj response_data) =>
      match py_iter (dict_get_or response_data "value" (JArr [])) with
      | Some page => Some (page, next_link response_data)
      | None => None
      end
  | _ => None
  end.

(** Following the cursors from [cursor], the source serves [k] pages and each
    of them carries a cursor: there is more after the [k]-th. *)
Fixpoint serves_pages (api : source) (hdrs : list (string * string))
         (log : list get_request) (cursor : json) (k : nat) : bool :=
  match k with
  | O => true
  | S k' =>
      match page_at api hdrs log cursor with
      | Some (_, next) =>
          py_bool next &&
          serves_pages api hdrs (log ++ [{| url := cursor; headers := hdrs |}]) next k'
      | None => false
      end
  end.

(** Following the cursors from [cursor], the source serves exactly [k] pages:
    the [k]-th is the first one without a cursor. *)
Fixpoint ends_after (api : source) (hdrs : list (string * string))
         (log : list get_request) (cursor : json) (k : nat) : bool :=
  match k with
  | O => negb (py_bool cursor)
  | S k' =>
      py_bool cursor &&
      match page_at api hdrs log cursor with
      | Some (_, next) =>
          ends_after api hdrs (log ++ [{| url := cursor; headers := hdrs |}]) next k'
      | None => false
      end
  end.

(** The records of the first [k] pages served from [cursor], in order. *)
Fixpoint records_of_pages (api : source) (hdrs : list (string * string))
         (log : list get_request) (cursor : json) (k : nat) : list json :=
  match k with
  | O => []
  | S k' =>
      match page_at api hdrs log cursor with
      | Some (page, next) =>
          page ++
          records_of_pages api hdrs (log ++ [{| url := cursor; headers := hdrs |}]) next k'
      | None => []
      end
  end.

(** The loop variables after [k] more successful turns of the loop body. *)
Fixpoint advance (api : source) (hdrs : list (string * string))
         (st : loop_state) (k : nat) : loop_state :=
  match k with
  | O => st
  | S k' =>
      match fetch_page api hdrs st with
      | Ok st' => advance api hdrs st' k'
      | Raise _ => st
      end
  end.

(** The loop variables after a page with records [page] and cursor [next]. *)
Definition after_page (hdrs : list (string * string)) (st : loop_state)
           (page : list json) (next : json) : loop_state := {|
  all_vulnerabilities := all_vulnerabilities st ++ page;
  current_url := next;
  pages_fetched := S (pages_fetched st);
  requests := requests st ++ [next_request hdrs st]
|}.

(** *** Sample sources *)

Definition page_body (ids : list Z) (next : option string) : json :=
  JObj (("value", JArr (map JInt ids))
        :: match next with
           | Some link => [("@odata.nextLink", JStr link)]
           | None => []
           end).

(** Three pages, told apart by the number of GETs already made. *)
Definition three_pages : source := fun log _ =>
  match length log with
  | 0%nat => Success (page_body [1; 2]%Z (Some "https://api/next1"))
  | 1%nat => Success (page_body [3]%Z (Some "https://api/next2"))
  | _ => Success (page_body [4; 5]%Z None)
  end.

(** A first page without the record list, then a last page. *)
Definition page_without_value : source := fun log _ =>
  match length log with
  | 0%nat => Success (JObj [("@odata.nextLink", JStr "https://api/next1")])
  | _ => Success (page_body [7]%Z None)
  end.

(** A source whose every page points to a next one. *)
Definition endless : source := fun _ _ =>
  Success (page_body [1]%Z (Some "https://api/again")).

(** The data API reached through the session of the module: the outcome of a
    GET is what the session makes of the endpoint's answers. *)
Definition through_session (server : get_request -> Transport.endpoint) : source :=
  fun _ request => Transport.session_call "GET" (server request).

(** A source that, by whatever transport, hands the caller a 429 response. *)
Definition rate_limited (retry_after : option string) : source := fun _ _ =>
  HttpError {| status_code := 429;
               response_headers :=
                 match retry_after with
                 | Some v => [("Retry-After", v)]
                 | None => []
                 end;
               body := JNull |}.

End Fetcher.

(** ** [getMDVMData]

    The whole handler: parameters, configuration from the environment, token,
    fetch, optional reorganization, and the mapping of what went wrong to a
    status code.  The body of a response is kept as the value handed to
    [json.dumps], not as its text; the [timestamp] of the error bodies, a
    clock reading, is left out like the fetch duration. *)

Module Handler.
Import EntryPoint.

Inductive payload : Type :=
| ErrorBody (error : string)
| Fetched (vulnerabilities_data : Fetcher.fetch_result)
| Reorganized (data : Reorganizer.hierarchy)
              (total_vulnerabilities pages_fetched : nat) (has_more_data : bool).

Record HttpResponse : Type := {
  http_status : Z;
  http_body : payload
}.

Definition required_env_vars : list string :=
  ["AAD_TENANT_ID"; "AAD_CLIENT_ID"; "AAD_CLIENT_SECRET"].

(** The [for] loop of lines 245-254: the name of the first variable that is
    unset or empty, or the values collected. *)
Fixpoint load_required (environ : gmap string string) (vars : list string)
         (env_config : gmap string string) : string + gmap string string :=
  match vars with
  | [] => inr env_config
  | var :: rest =>
      match environ !! var with
      | Some value =>
          if String.eqb value "" then inl var
          else load_required environ rest (<[var := value]> env_config)
      | None => inl var
      end
  end.

(** The two [except] clauses of lines 306-325. *)
Definition failure_response (err : exn) : HttpResponse :=
  match err with
  | RuntimeError msg => {| http_status := 502; http_body := ErrorBody msg |}
  | _ => {| http_status := 500; http_body := ErrorBody "Internal server error" |}
  end.

(** Lines 272-304, once the fetch has returned. *)
Definition success_response (py_repr : json -> string) (reorganize : bool)
           (vulnerabilities_data : Fetcher.fetch_result) : result HttpResponse :=
  if reorganize &&
     match Fetcher.vulnerabilities vulnerabilities_data with [] => false | _ :: _ => true end
  then
    let* reorganized_data :=
      Reorganizer._reorganize_vulnerabilities_by_hierarchy
        py_repr (Fetcher.vulnerabilities vulnerabilities_data) in
    Ok {| http_status := 200;
          http_body :=
            Reorganized reorganized_data
                        (Fetcher.total_count vulnerabilities_data)
                        (Fetcher.result_pages_fetched vulnerabilities_data)
                        (Fetcher.has_more_data vulnerabilities_data) |}
  else Ok {| http_status := 200; http_body := Fetched vulnerabilities_data |}.

(** The handler.  [Raise] would be an exception leaving the handler; [None]
    a fetch that the fuel does not see the end of.  [env_config[var]] cannot
    miss after the loop; the lookups fall back to the empty text. *)
Definition getMDVMData (py_repr : json -> string) (fuel : nat)
           (params environ : gmap string string)
           (e : TokenCache.env) (api : Fetcher.source) (st : TokenCache.state)
  : option (result HttpResponse * TokenCache.state) :=
  match request_parameters params with
  | Raise ValueError =>
      Some (Ok {| http_status := 400;
                  http_body := ErrorBody "pageSize and maxPages must be valid integers" |},
            st)
  | Raise err => Some (Raise err, st)
  | Ok p =>
      match load_required environ required_env_vars ∅ with
      | inl var =>
          Some (Ok {| http_status := 500;
                      http_body :=
                        ErrorBody ("Server misconfiguration: " +:+ var +:+ " is missing") |},
                st)
      | inr env_config =>
          let resource_app_id_uri :=
            default "https://api.securitycenter.microsoft.com"
                    (environ !! "AAD_RESOURCE_APP_ID_URI") in
          let '(fetched_token, st1) :=
            TokenCache._get_cached_token
              e
              (default "" (env_config !! "AAD_TENANT_ID"))
              (default "" (env_config !! "AAD_CLIENT_ID"))
              (default "" (env_config !! "AAD_CLIENT_SECRET"))
              resource_app_id_uri st in
          match fetched_token with
          | Raise err => Some (Ok (failure_response err), st1)
          | Ok access_token =>
              match Fetcher._fetch_mdvm_vulnerabilities
                      fuel api (py_format py_repr access_token)
                      (page_size p) (max_pages p) with
              | None => None
              | Some (Raise err) => Some (Ok (failure_response err), st1)
              | Some (Ok vulnerabilities_data) =>
                  match success_response py_repr (reorganize p) vulnerabilities_data with
                  | Ok resp => Some (Ok resp, st1)
                  | Raise err => Some (Ok (failure_response err), st1)
                  end
              end
          end
      end
  end.

(** *** Vocabulary of the handler's properties *)

(** The three required variables are set, to these non-empty texts. *)
Definition configured (environ : gmap string string)
           (tenant_id client_id client_secret : string) : Prop :=
  environ !! "AAD_TENANT_ID" = Some tenant_id /\ tenant_id <> ""
  /\ environ !! "AAD_CLIENT_ID" = Some client_id /\ client_id <> ""
  /\ environ !! "AAD_CLIENT_SECRET" = Some client_secret /\ client_secret <> "".

(** The resource the token is asked for. *)
Definition resource_of (environ : gmap string string) : string :=
  default "https://api.securitycenter.microsoft.com"
          (environ !! "AAD_RESOURCE_APP_ID_URI").

(** Is the variable unset or empty? *)
Definition unset (environ : gmap string string) (var : string) : bool :=
  match environ !! var with
  | Some value => String.eqb value ""
  | None => true
  end.

(** *** A sample deployment *)

Definition sample_environ : gmap string string :=
  {[ "AAD_TENANT_ID" := "contoso"; "AAD_CLIENT_ID" := "app-1";
     "AAD_CLIENT_SECRET" := "s3cret" ]}.

Definition two_records : Fetcher.source := fun _ _ =>
  Success (JObj [("value", JArr [Reorganizer.desk1_first; Reorganizer.desk1_second])]).

Definition bad_record : Fetcher.source := fun _ _ =>
  Success (JObj [("value", JArr [JStr "not a record"])]).

(** A cache that holds a token for the sample deployment, good until 9000. *)
Definition warm_state : TokenCache.state := {|
  TokenCache.token_cache :=
    {[ TokenCache.cache_key_of "contoso" "app-1" "https://api.securitycenter.microsoft.com" :=
         {| TokenCache.token := JStr "warm"; TokenCache.expires_at := 9000 |} ]};
  TokenCache.clock_reads := 0;
  TokenCache.token_requests := []
|}.

End Handler.

(** ** Vocabulary of the further properties *)

Module Extra.
Import Reorganizer.

Section WithRepr.
Variable py_repr : json -> string.

(** The number of entries in the innermost dicts: of one platform, and of
    the whole hierarchy. *)
Definition device_count (devices : list (json * list (json * json))) : nat :=
  list_sum (map (fun dc => length (snd dc)) devices).

Definition entry_count (h : hierarchy) : nat :=
  list_sum (map (fun pd => device_count (snd pd)) h).

(** Is [other] filed under the path of the record [vuln]? *)
Definition same_path (vuln other : json) : bool :=
  match vuln with
  | JObj fields => filed_under py_repr (record_path py_repr fields) other
  | _ => false
  end.

(** How many of [records] open a path that neither [seen] nor an earlier one
    of [records] has. *)
Fixpoint new_paths (seen records : list json) : nat :=
  match records with
  | [] => 0
  | vuln :: rest =>
      (if existsb (same_path vuln) seen then 0 else 1) + new_paths (seen ++ [vuln]) rest
  end.

(** What the first record that cannot be filed raises. *)
Fixpoint first_failure (records : list json) : option exn :=
  match records with
  | [] => None
  | vuln :: rest =>
      match vuln with
      | JObj _ =>
          if well_typed_record py_repr vuln then first_failure rest else Some TypeError
      | _ => Some AttributeError
      end
  end.
End WithRepr.

(** The platform key of a record. *)
Definition platform_of (vuln : json) : json :=
  match vuln with
  | JObj fields => dict_get_or fields "osPlatform" (JStr "Unknown")
  | _ => JNull
  end.

(** Keys in the order of their first occurrence, equal keys once. *)
Definition add_key (keys : list json) (k : json) : list json :=
  if existsb (fun k' => key_eqb k' k) keys then keys else keys ++ [k].

Definition first_keys (keys : list json) : list json := fold_left add_key keys [].

(** No colon in a text. *)
Definition colon_free (s : string) : bool :=
  forallb (fun c => negb (Ascii.eqb c ":"%char)) (list_ascii_of_string s).

(** An endpoint that answers 503 to the first [failures] transmissions and
    [good] from then on. *)
Definition flaky (failures : nat) (good : response) : Transport.endpoint :=
  fun n => if (n <? failures)%nat then Transport.answer 503 [] else good.

(** The request [_fetch_aad_token] posts for a set of credentials. *)
Definition token_request_for
           (tenant_id client_id client_secret resource_app_id_uri : string)
  : TokenCache.token_request := {|
  TokenCache.token_url :=
    "https://login.microsoftonline.com/" +:+ tenant_id +:+ "/oauth2/token";
  TokenCache.data :=
    [("resource", resource_app_id_uri); ("client_id", client_id);
     ("client_secret", client_secret); ("grant_type", "client_credentials")]
|}.

(** The state after one more reading of the clock. *)
Definition tick (st : TokenCache.state) : TokenCache.state := {|
  TokenCache.token_cache := TokenCache.token_cache st;
  TokenCache.clock_reads := S (TokenCache.clock_reads st);
  TokenCache.token_requests := TokenCache.token_requests st
|}.

(** A state of the token cache with one entry for the sample credentials. *)
Definition cached_state (tok : string) (expiry : Q) : TokenCache.state := {|
  TokenCache.token_cache :=
    {[ TokenCache.cache_key_of "t" "c" "r" :=
         {| TokenCache.token := JStr tok; TokenCache.expires_at := expiry |} ]};
  TokenCache.clock_reads := 0;
  TokenCache.token_requests := []
|}.

(** A provider that refuses every request. *)
Definition refusing_env : TokenCache.env := {|
  TokenCache.clock := fun n => inject_Z (1000 + 10 * Z.of_nat n);
  TokenCache.identity_provider := fun _ _ =>
    HttpError {| status_code := 401; response_headers := []; body := JNull |}
|}.

(** Records of two platforms, the first platform coming back at the end. *)
Definition linux_record (device cve : string) : json :=
  JObj [("osPlatform", JStr "Linux"); ("deviceName", JStr device); ("cveId", JStr cve)].

Definition mixed_records : list json :=
  [linux_record "srv-1" "CVE-1"; desk1_first; linux_record "srv-1" "CVE-1";
   linux_record "srv-2" "CVE-1"].

(** A record whose platform is a list, and something that is no record. *)
Definition list_platform : json := JObj [("osPlatform", JArr [JStr "Linux"])].

(** Two pages with cursors, then 401. *)
Definition then_unauthorized : Fetcher.source := fun log _ =>
  match length log with
  | 0%nat => Success (Fetcher.page_body [1; 2]%Z (Some "https://api/next1"))
  | 1%nat => Success (Fetcher.page_body [3]%Z (Some "https://api/next2"))
  | _ => HttpError {| status_code := 401; response_headers := []; body := JNull |}
  end.

(** A page whose record list is null, and a body that is a list. *)
Definition null_value : Fetcher.source := fun _ _ =>
  Success (JObj [("value", JNull)]).


(** A data endpoint that answers 404 to everything. *)
Definition always_404 : Transport.endpoint := fun _ => Transport.answer 404 [].

End Extra.

(* ===================================================================== *)
(** * Part II.  Properties                                                *)
(* ===================================================================== *)

(** ** Key equality is a partial equivalence, total on hashable values *)

Module PyFacts.

Lemma key_eqb_spec (a b : json) :
  key_eqb a b = true <->
  (exists s, a = JStr s /\ b = JStr s)
  \/ (a = JNull /\ b = JNull)
  \/ (exists x y, num_of a = Some x /\ num_of b = Some y /\ (x == y)%Q).
Proof.
  split.
  - destruct a, b; simpl; intros H; try discriminate H;
      try (right; right; eexists _, _; split; [reflexivity|];
           split; [reflexivity|]; apply Qeq_bool_iff; exact H).
    + right; left; split; reflexivity.
    + left. apply String.eqb_eq in H. subst. eexists; split; reflexivity.
  - intros [[s [-> ->]] | [[-> ->] | [x [y [Ha [Hb Hxy]]]]]].
    + simpl. apply String.eqb_refl.
    + reflexivity.
    + destruct a, b; simpl in *; try discriminate;
        injection Ha as <-; injection Hb as <-; apply Qeq_bool_iff; exact Hxy.
Qed.

Lemma key_eqb_refl (a : json) : hashable a = true -> key_eqb a a = true.
Proof.
  destruct a; simpl; intros H; try discriminate H; try reflexivity;
    try (apply Qeq_bool_iff; reflexivity).
  apply String.eqb_refl.
Qed.

Lemma key_eqb_sym (a b : json) : key_eqb a b = true -> key_eqb b a = true.
Proof.
  rewrite !key_eqb_spec.
  intros [[s [-> ->]] | [[-> ->] | [x [y [Ha [Hb Hxy]]]]]].
  - left; eauto.
  - right; left; auto.
  - right; right. exists y, x. repeat split; auto. symmetry; exact Hxy.
Qed.

Lemma key_eqb_trans (a b c : json) :
  key_eqb a b = true -> key_eqb b c = true -> key_eqb a c = true.
Proof.
  rewrite !key_eqb_spec.
  intros [[s [-> ->]] | [[-> ->] | [x [y [Ha [Hb Hxy]]]]]] Hbc.
  - destruct Hbc as [[s' [E ->]] | [[E _] | [x' [y' [Hb' _]]]]];
      [injection E as -> | discriminate E | discriminate Hb'].
    left; eauto.
  - destruct Hbc as [[s' [E _]] | [[_ ->] | [x' [y' [Hb' _]]]]];
      [discriminate E | | discriminate Hb'].
    right; left; auto.
  - destruct Hbc as [[s' [E _]] | [[E _] | [x' [y' [Hb' [Hc Hxy']]]]]].
    + rewrite E in Hb. discriminate Hb.
    + rewrite E in Hb. discriminate Hb.
    + right; right. exists x, y'. repeat split; auto.
      rewrite Hb in Hb'. injection Hb' as <-. rewrite Hxy. exact Hxy'.
Qed.

(** Equal keys answer every comparison alike. *)
Lemma key_eqb_congr (a b c : json) :
  key_eqb a b = true -> key_eqb a c = key_eqb b c.
Proof.
  intros Hab.
  destruct (key_eqb b c) eqn:Hbc.
  - eapply key_eqb_trans; eassumption.
  - destruct (key_eqb a c) eqn:Hac; [|reflexivity].
    rewrite <- Hbc. symmetry.
    eapply key_eqb_trans; [apply key_eqb_sym; exact Hab | exact Hac].
Qed.

Lemma key_eqb_congr_r (a b c : json) :
  key_eqb a b = true -> key_eqb c a = key_eqb c b.
Proof.
  intros Hab.
  destruct (key_eqb c b) eqn:Hcb.
  - eapply key_eqb_trans; [exact Hcb | apply key_eqb_sym; exact Hab].
  - destruct (key_eqb c a) eqn:Hca; [|reflexivity].
    rewrite <- Hcb. symmetry. eapply key_eqb_trans; eassumption.
Qed.

(** An unhashable value equals no key. *)
Lemma key_eqb_hashable_l (a b : json) : key_eqb a b = true -> hashable a = true.
Proof. destruct a, b; simpl; intros H; try discriminate H; reflexivity. Qed.

Lemma key_eqb_hashable_r (a b : json) : key_eqb a b = true -> hashable b = true.
Proof. destruct a, b; simpl; intros H; try discriminate H; reflexivity. Qed.

End PyFacts.

(** ** Dictionaries: lookup after assignment *)

Module PyDictFacts.
Import PyFacts.

Section Dict.
Context {V : Type}.
Implicit Types (d : list (json * V)) (k : json) (v : V).

Lemma select_cons k0 v0 d k :
  PyDict.select ((k0, v0) :: d) k =
  if key_eqb k0 k then v0 :: PyDict.select d k else PyDict.select d k.
Proof. unfold PyDict.select. simpl. destruct (key_eqb k0 k); reflexivity. Qed.

Lemma select_congr d k k' :
  key_eqb k k' = true -> PyDict.select d k = PyDict.select d k'.
Proof.
  intros Hk. induction d as [|[k0 v0] d IH]; [reflexivity|].
  rewrite !select_cons, IH, (key_eqb_congr_r k k' k0 Hk). reflexivity.
Qed.

Lemma unique_nil : PyDict.unique (@nil (json * V)).
Proof. intros k. simpl. lia. Qed.

Lemma unique_tail k0 v0 d : PyDict.unique ((k0, v0) :: d) -> PyDict.unique d.
Proof.
  intros U k. specialize (U k). rewrite select_cons in U.
  destruct (key_eqb k0 k); simpl in U; lia.
Qed.

Lemma unique_head k0 v0 d k :
  PyDict.unique ((k0, v0) :: d) -> key_eqb k0 k = true -> PyDict.select d k = [].
Proof.
  intros U Hk. specialize (U k). rewrite select_cons, Hk in U.
  destruct (PyDict.select d k); [reflexivity | simpl in U; lia].
Qed.

(** In a dict, the entries under a key are the one [get] finds. *)
Lemma select_get d k :
  PyDict.unique d -> PyDict.select d k = option_list (PyDict.get d k).
Proof.
  induction d as [|[k0 v0] d IH]; intros U; [reflexivity|].
  rewrite select_cons. simpl.
  destruct (key_eqb k0 k) eqn:Hk.
  - rewrite (unique_head _ _ _ _ U Hk). reflexivity.
  - apply IH. eapply unique_tail; exact U.
Qed.

Lemma select_set d k v k' :
  PyDict.unique d -> hashable k = true ->
  PyDict.select (PyDict.set d k v) k' =
  if key_eqb k k' then [v] else PyDict.select d k'.
Proof.
  intros U Hh. induction d as [|[k0 v0] d IH]; simpl.
  - rewrite select_cons. reflexivity.
  - destruct (key_eqb k0 k) eqn:Hk.
    + rewrite !select_cons, (key_eqb_congr k0 k k' Hk).
      destruct (key_eqb k k') eqn:Hkk'; [|reflexivity].
      rewrite (unique_head k0 v0 d k' U); [reflexivity|].
      rewrite (key_eqb_congr k0 k k' Hk). exact Hkk'.
    + rewrite !select_cons, IH by (eapply unique_tail; exact U).
      destruct (key_eqb k k') eqn:Hkk'; [|reflexivity].
      rewrite <- (key_eqb_congr_r k k' k0 Hkk'), Hk. reflexivity.
Qed.

Lemma unique_set d k v :
  PyDict.unique d -> hashable k = true -> PyDict.unique (PyDict.set d k v).
Proof.
  intros U Hh k'. rewrite select_set by assumption.
  destruct (key_eqb k k'); [simpl; lia | apply U].
Qed.

Lemma get_In d k v : PyDict.get d k = Some v -> exists k0, In (k0, v) d.
Proof.
  induction d as [|[k0 v0] d IH]; simpl; [discriminate|].
  destruct (key_eqb k0 k).
  - intros [= <-]. exists k0. left; reflexivity.
  - intros H. destruct (IH H) as [k1 Hin]. exists k1. right; exact Hin.
Qed.

Lemma Forall_set (P : V -> Prop) d k v :
  Forall (fun kv => P (snd kv)) d -> P v ->
  Forall (fun kv => P (snd kv)) (PyDict.set d k v).
Proof.
  intros Hd Hv. induction d as [|[k0 v0] d IH]; simpl.
  - constructor; [exact Hv | constructor].
  - inversion Hd as [|? ? H0 Hrest]; subst.
    destruct (key_eqb k0 k); constructor; simpl; auto.
Qed.
End Dict.

End PyDictFacts.

(** ** The reorganizer *)

Module ReorganizerFacts.
Import PyFacts PyDictFacts Reorganizer.

Section WithRepr.
Variable py_repr : json -> string.

Abbreviation record_path := (record_path py_repr).
Abbreviation reorganize_step := (reorganize_step py_repr).
Abbreviation reorganize_from := (reorganize_from py_repr).
Abbreviation filed_under := (filed_under py_repr).

Lemma wf_hierarchy_nil : wf_hierarchy [].
Proof. split; [apply unique_nil | constructor]. Qed.

Lemma wf_devices_nil : wf_devices [].
Proof. split; [apply unique_nil | constructor]. Qed.

Lemma wf_devices_of h p : wf_hierarchy h -> wf_devices (devices_of h p).
Proof.
  intros [_ Hall]. unfold devices_of.
  destruct (PyDict.get h p) as [devices|] eqn:Hg.
  - destruct (get_In _ _ _ Hg) as [k0 Hin].
    exact (proj1 (List.Forall_forall _ _) Hall _ Hin).
  - apply wf_devices_nil.
Qed.

Lemma unique_cves_of devices d : wf_devices devices -> PyDict.unique (cves_of devices d).
Proof.
  intros [_ Hall]. unfold cves_of.
  destruct (PyDict.get devices d) as [cves|] eqn:Hg.
  - destruct (get_In _ _ _ Hg) as [k0 Hin].
    exact (proj1 (List.Forall_forall _ _) Hall _ Hin).
  - apply unique_nil.
Qed.

(** Entries under a path, read through the two [setdefault] lookups. *)
Lemma entries_at_devices h p d k :
  wf_hierarchy h ->
  entries_at h (p, d, k) =
  flat_map (fun cves => PyDict.select cves k) (PyDict.select (devices_of h p) d).
Proof.
  intros W. unfold entries_at, devices_of. rewrite (select_get h p (proj1 W)).
  destruct (PyDict.get h p) as [devices|]; simpl; [apply app_nil_r | reflexivity].
Qed.

Lemma entries_at_cves h p d k :
  wf_hierarchy h ->
  entries_at h (p, d, k) = PyDict.select (cves_of (devices_of h p) d) k.
Proof.
  intros W. rewrite (entries_at_devices h p d k W).
  rewrite (select_get _ d (proj1 (wf_devices_of h p W))). unfold cves_of.
  destruct (PyDict.get (devices_of h p) d) as [cves|]; simpl;
    [apply app_nil_r | reflexivity].
Qed.

Lemma entries_at_congr_p h p p' d k :
  key_eqb p p' = true -> entries_at h (p, d, k) = entries_at h (p', d, k).
Proof. intros Hp. unfold entries_at. rewrite (select_congr h p p' Hp). reflexivity. Qed.

Lemma entries_at_congr_d h p d d' k :
  key_eqb d d' = true -> entries_at h (p, d, k) = entries_at h (p, d', k).
Proof.
  intros Hd. unfold entries_at.
  apply List.flat_map_ext. intros devices.
  rewrite (select_congr devices d d' Hd). reflexivity.
Qed.

(** One record filed: its path now holds it and nothing else; the other
    paths are as before. *)
Lemma reorganize_step_spec h vuln h' :
  wf_hierarchy h ->
  reorganize_step h vuln = Ok h' ->
  wf_hierarchy h' /\
  forall path,
    entries_at h' path = if filed_under path vuln then [vuln] else entries_at h path.
Proof.
  intros W. unfold Reorganizer.reorganize_step.
  destruct vuln as [| | | | |?|fields]; try discriminate.
  unfold Reorganizer.filed_under.
  destruct (record_path fields) as [[p d] k] eqn:Hpath.
  destruct (hashable p) eqn:Hp; simpl; [|discriminate].
  destruct (hashable d) eqn:Hd; simpl; [|discriminate].
  destruct (hashable k) eqn:Hk; simpl; [|discriminate].
  intros [= <-].
  pose proof (wf_devices_of h p W) as Wd.
  pose proof (unique_cves_of (devices_of h p) d Wd) as Wc.
  set (devices := devices_of h p) in *.
  set (cves := cves_of devices d) in *.
  assert (Wd' : wf_devices (PyDict.set devices d (PyDict.set cves k (JObj fields)))).
  { split.
    - apply unique_set; [exact (proj1 Wd) | exact Hd].
    - apply (Forall_set (fun c => PyDict.unique c)); [exact (proj2 Wd)|].
      apply unique_set; assumption. }
  split.
  - split.
    + apply unique_set; [exact (proj1 W) | exact Hp].
    + apply (Forall_set wf_devices); [exact (proj2 W) | exact Wd'].
  - intros [[p' d'] k']. unfold path_eqb.
    unfold entries_at at 1.
    rewrite (select_set h p _ p' (proj1 W) Hp).
    destruct (key_eqb p p') eqn:Hpp; cbn [andb flat_map]; [|reflexivity].
    rewrite <- (entries_at_congr_p h p p' d' k' Hpp).
    rewrite app_nil_r, (select_set devices d _ d' (proj1 Wd) Hd).
    destruct (key_eqb d d') eqn:Hdd; cbn [andb flat_map].
    + rewrite app_nil_r, (select_set cves k _ k' Wc Hk).
      destruct (key_eqb k k'); [reflexivity|].
      rewrite <- (entries_at_congr_d h p d d' k' Hdd).
      apply eq_sym, entries_at_cves, W.
    + apply eq_sym, entries_at_devices, W.
Qed.

Abbreviation last_step path :=
  (fun (found : option json) vuln => if filed_under path vuln then Some vuln else found).

(** The loop, from any dict reached so far. *)
Lemma reorganize_from_spec vulnerabilities :
  forall h h' (found : json * json * json -> option json),
    wf_hierarchy h ->
    reorganize_from h vulnerabilities = Ok h' ->
    (forall path, entries_at h path = option_list (found path)) ->
    wf_hierarchy h' /\
    forall path,
      entries_at h' path =
      option_list (fold_left (last_step path) vulnerabilities (found path)).
Proof.
  induction vulnerabilities as [|vuln rest IH]; intros h h' found W Hrun Hfound.
  - injection Hrun as <-. split; [exact W | exact Hfound].
  - simpl in Hrun.
    destruct (reorganize_step h vuln) as [h1|err] eqn:Hstep; [|discriminate Hrun].
    simpl in Hrun.
    destruct (reorganize_step_spec h vuln h1 W Hstep) as [W1 H1].
    destruct (IH h1 h' (fun path => last_step path (found path) vuln) W1 Hrun)
      as [W' H'].
    + intros path. rewrite H1, Hfound.
      destruct (filed_under path vuln); reflexivity.
    + split; [exact W' | exact H'].
Qed.

(** A run that ends well has met only records it could file. *)
Lemma reorganize_from_well_typed vulnerabilities :
  forall h h',
    reorganize_from h vulnerabilities = Ok h' ->
    forallb (well_typed_record py_repr) vulnerabilities = true.
Proof.
  induction vulnerabilities as [|vuln rest IH]; intros h h' Hrun; [reflexivity|].
  simpl in Hrun.
  destruct (reorganize_step h vuln) as [h1|err] eqn:Hstep; [|discriminate Hrun].
  simpl in Hrun. simpl. rewrite (IH _ _ Hrun), andb_true_r.
  unfold Reorganizer.reorganize_step in Hstep. unfold well_typed_record.
  destruct vuln as [| | | | |?|fields]; try discriminate Hstep.
  destruct (record_path fields) as [[p d] k].
  destruct (hashable p); [|discriminate Hstep].
  destruct (hashable d); [|discriminate Hstep].
  destruct (hashable k); [reflexivity | discriminate Hstep].
Qed.

(** And a well-typed record is always filed. *)
Lemma reorganize_step_total h vuln :
  well_typed_record py_repr vuln = true -> exists h', reorganize_step h vuln = Ok h'.
Proof.
  unfold well_typed_record, Reorganizer.reorganize_step.
  destruct vuln as [| | | | |?|fields]; try discriminate.
  destruct (record_path fields) as [[p d] k].
  intros H. apply andb_prop in H as [H Hk]. apply andb_prop in H as [Hp Hd].
  rewrite Hp, Hd, Hk. simpl. eexists; reflexivity.
Qed.

Lemma reorganize_from_total vulnerabilities :
  forall h,
    forallb (well_typed_record py_repr) vulnerabilities = true ->
    exists h', reorganize_from h vulnerabilities = Ok h'.
Proof.
  induction vulnerabilities as [|vuln rest IH]; intros h Hall.
  - exists h. reflexivity.
  - simpl in Hall. apply andb_prop in Hall as [Hv Hrest].
    destruct (reorganize_step_total h vuln Hv) as [h1 Hstep].
    simpl. rewrite Hstep. simpl. apply IH, Hrest.
Qed.

Lemma filed_under_own_path fields :
  well_typed_record py_repr (JObj fields) = true ->
  filed_under (record_path fields) (JObj fields) = true.
Proof.
  unfold well_typed_record, Reorganizer.filed_under, path_eqb.
  destruct (record_path fields) as [[p d] k].
  intros H. apply andb_prop in H as [H Hk]. apply andb_prop in H as [Hp Hd].
  rewrite !key_eqb_refl by assumption. reflexivity.
Qed.

Lemma fold_last_none path later found :
  existsb (filed_under path) later = false ->
  fold_left (last_step path) later found = found.
Proof.
  revert found. induction later as [|v later IH]; intros found H; [reflexivity|].
  simpl in H. apply orb_false_elim in H as [Hv Hl].
  simpl. rewrite Hv. apply IH, Hl.
Qed.

Lemma fold_last_some path later found v :
  fold_left (last_step path) later found = Some v ->
  found = Some v \/ (In v later /\ filed_under path v = true).
Proof.
  revert found. induction later as [|w later IH]; intros found H; [left; exact H|].
  simpl in H. destruct (IH _ H) as [Hfound | [Hin Hv]].
  - destruct (filed_under path w) eqn:Hw.
    + injection Hfound as <-. right. split; [left; reflexivity | exact Hw].
    + left. exact Hfound.
  - right. split; [right; exact Hin | exact Hv].
Qed.


Lemma vulnerability_key_synthesized fields :
  py_bool (dict_get_or fields "cveId" JNull) = false ->
  vulnerability_key py_repr fields = JStr (synthesized_key py_repr fields).
Proof.
  intros Hv. unfold vulnerability_key. rewrite Hv. simpl.
  unfold synthesized_key, software_component, dict_get_or.
  destruct (dict_get fields "softwareName"), (dict_get fields "softwareVersion");
    reflexivity.
Qed.

(** A single record ends up alone under its three keys. *)
Lemma reorganize_singleton fields :
  well_typed_record py_repr (JObj fields) = true ->
  _reorganize_vulnerabilities_by_hierarchy py_repr [JObj fields] =
  Ok [(dict_get_or fields "osPlatform" (JStr "Unknown"),
       [(dict_get_or fields "deviceName" (JStr "Unknown"),
         [(vulnerability_key py_repr fields, JObj fields)])])].
Proof.
  unfold well_typed_record, _reorganize_vulnerabilities_by_hierarchy.
  unfold Reorganizer.reorganize_from, Reorganizer.reorganize_step, Reorganizer.record_path.
  intros H. apply andb_prop in H as [H Hk]. apply andb_prop in H as [Hp Hd].
  rewrite Hp, Hd, Hk. reflexivity.
Qed.
End WithRepr.

(** What a returned hierarchy holds: under any path, the last input record
    filed under it and nothing else. *)
Lemma reorganize_entries
      (py_repr : json -> string) (vulnerabilities : list json) (h : hierarchy) :
  _reorganize_vulnerabilities_by_hierarchy py_repr vulnerabilities = Ok h ->
  (forall path,
      entries_at h path = option_list (last_filed py_repr vulnerabilities path))
  /\ (forall earlier fields later,
        vulnerabilities = earlier ++ JObj fields :: later ->
        existsb (filed_under py_repr (record_path py_repr fields)) later = false ->
        entries_at h (record_path py_repr fields) = [JObj fields])
  /\ (forall path vuln,
        In vuln (entries_at h path) ->
        In vuln vulnerabilities /\ filed_under py_repr path vuln = true).
Proof.
  intros Hrun.
  destruct (reorganize_from_spec py_repr vulnerabilities [] h (fun _ => None)
              (wf_hierarchy_nil) Hrun) as [_ Hlast];
    [intros [[? ?] ?]; reflexivity|].
  split; [exact Hlast|]. split.
  - intros earlier fields later Heq Hnone.
    rewrite Hlast. unfold last_filed. subst vulnerabilities.
    pose proof (reorganize_from_well_typed py_repr _ _ _ Hrun) as Hwt.
    rewrite forallb_app in Hwt. apply andb_prop in Hwt as [_ Hwt].
    simpl in Hwt. apply andb_prop in Hwt as [Hwt _].
    rewrite fold_left_app. cbn [fold_left].
    rewrite (filed_under_own_path py_repr fields Hwt).
    rewrite (fold_last_none py_repr _ later _ Hnone). reflexivity.
  - intros path vuln Hin. rewrite Hlast in Hin. unfold last_filed in Hin.
    destruct (fold_left _ vulnerabilities None) as [v|] eqn:Hfold; simpl in Hin;
      [|contradiction].
    destruct Hin as [<- | []].
    destruct (fold_last_some py_repr _ _ _ _ Hfold) as [Hnone | H];
      [discriminate Hnone | exact H].
Qed.

(** C5.  On every sequence of records of the data model the reorganizer
    returns a hierarchy in which the entries found under any (platform,
    device, key) path are exactly the last input record filed under that
    path: none when no record has the path, one otherwise, and that one is
    the last in input order.  So an input record that no later record shares
    its path with sits alone at its own path, of several records with one
    path only the last is kept, and whatever sits under a path is an input
    record filed under it. *)
Theorem reorganize_last_write_wins
        (py_repr : json -> string) (vulnerabilities : list json) :
  forallb (well_typed_record py_repr) vulnerabilities = true ->
  exists h,
    _reorganize_vulnerabilities_by_hierarchy py_repr vulnerabilities = Ok h
    /\ (forall path,
          entries_at h path = option_list (last_filed py_repr vulnerabilities path))
    /\ (forall earlier fields later,
          vulnerabilities = earlier ++ JObj fields :: later ->
          existsb (filed_under py_repr (record_path py_repr fields)) later = false ->
          entries_at h (record_path py_repr fields) = [JObj fields])
    /\ (forall path vuln,
          In vuln (entries_at h path) ->
          In vuln vulnerabilities /\ filed_under py_repr path vuln = true).
Proof.
  intros Hwt.
  destruct (reorganize_from_total py_repr vulnerabilities [] Hwt) as [h Hrun].
  exists h. split; [exact Hrun|].
  apply reorganize_entries. exact Hrun.
Qed.

(** The scenario of two records for Windows10 / DESK-1 / CVE-1. *)
Lemma reorganize_last_write_wins_witness :
  _reorganize_vulnerabilities_by_hierarchy no_repr [desk1_first; desk1_second]
  = Ok [(JStr "Windows10", [(JStr "DESK-1", [(JStr "CVE-1", desk1_second)])])]
  /\ entries_at [(JStr "Windows10", [(JStr "DESK-1", [(JStr "CVE-1", desk1_second)])])]
                (JStr "Windows10", JStr "DESK-1", JStr "CVE-1")
     = [desk1_second].
Proof.
  split; [reflexivity|].
  destruct (reorganize_last_write_wins no_repr [desk1_first; desk1_second] eq_refl)
    as [h [Hrun [Hlast _]]].
  assert (Hh : h = [(JStr "Windows10", [(JStr "DESK-1", [(JStr "CVE-1", desk1_second)])])])
    by (injection Hrun as <-; reflexivity).
  subst h.
  rewrite (Hlast (JStr "Windows10", JStr "DESK-1", JStr "CVE-1")). reflexivity.
Defined.



(** C10.  A cveId that is present but falsy (the empty string, null, the
    number 0 as an integer or as a float, false) counts as absent: the
    record is filed under the synthesized softwareName_softwareVersion key. *)
Theorem falsy_identifier_is_synthesized
        (py_repr : json -> string) (fields : list (string * json)) (v : json) :
  dict_get fields "cveId" = Some v ->
  In v [JStr ""; JNull; JInt 0; JFloat 0; JBool false] ->
  vulnerability_key py_repr fields = JStr (synthesized_key py_repr fields)
  /\ (hashable (dict_get_or fields "osPlatform" (JStr "Unknown")) = true ->
      hashable (dict_get_or fields "deviceName" (JStr "Unknown")) = true ->
      _reorganize_vulnerabilities_by_hierarchy py_repr [JObj fields] =
      Ok [(dict_get_or fields "osPlatform" (JStr "Unknown"),
           [(dict_get_or fields "deviceName" (JStr "Unknown"),
             [(JStr (synthesized_key py_repr fields), JObj fields)])])]).
Proof.
  intros Hget Hin.
  assert (Hkey : vulnerability_key py_repr fields = JStr (synthesized_key py_repr fields)).
  { apply vulnerability_key_synthesized. unfold dict_get_or. rewrite Hget.
    simpl in Hin. destruct Hin as [<- | [<- | [<- | [<- | [<- | []]]]]]; reflexivity. }
  split; [exact Hkey|].
  intros Hp Hd. rewrite <- Hkey. apply reorganize_singleton.
  unfold well_typed_record, Reorganizer.record_path.
  rewrite Hp, Hd, Hkey. reflexivity.
Qed.

Lemma falsy_identifier_is_synthesized_witness :
  vulnerability_key no_repr zero_id_fields = JStr "openssl_3.0.2"
  /\ _reorganize_vulnerabilities_by_hierarchy no_repr [JObj zero_id_fields] =
     Ok [(JStr "Linux", [(JStr "srv-7", [(JStr "openssl_3.0.2", JObj zero_id_fields)])])].
Proof.
  destruct (falsy_identifier_is_synthesized no_repr zero_id_fields (JInt 0) eq_refl)
    as [Hkey Hrun].
  - simpl. right; right; left; reflexivity.
  - split; [rewrite Hkey; reflexivity|].
    rewrite Hrun; reflexivity.
Defined.

End ReorganizerFacts.

(** ** Parameter handling *)

Module EntryPointFacts.
Import EntryPoint.

#[local] Open Scope Z_scope.

Lemma request_parameters_inv params p :
  request_parameters params = Ok p ->
  exists n m,
    py_int (page_size_text params) = Ok n /\
    py_int (max_pages_text params) = Ok m /\
    page_size p = Z.min (Z.max n 1) 200000 /\
    max_pages p = Z.max m 0.
Proof.
  unfold request_parameters, page_size_text, max_pages_text.
  destruct (py_int (default (str_of_int DEFAULT_PAGE_SIZE) (params !! "pageSize")))
    as [n|e]; [|discriminate].
  destruct (py_int (default (str_of_int DEFAULT_MAX_PAGES) (params !! "maxPages")))
    as [m|e]; [|discriminate].
  simpl. intros [= <-]. exists n, m. simpl. auto.
Qed.

Lemma request_parameters_total params n m :
  py_int (page_size_text params) = Ok n ->
  py_int (max_pages_text params) = Ok m ->
  exists p, request_parameters params = Ok p.
Proof.
  unfold request_parameters, page_size_text, max_pages_text.
  intros -> ->. simpl. eexists; reflexivity.
Qed.

(** C7.  When both numeric parameters read as integers the entry point goes
    on with a page size clamped into 1..200000 (values below 1 become 1,
    values above 200000 become 200000, the others are kept) and with a page
    limit that is the parsed value raised to 0 when negative; the texts -5 and
    999999999 give page sizes 1 and 200000. *)
Theorem page_size_and_max_pages_clamped (params : gmap string string) (n m : Z) :
  py_int (page_size_text params) = Ok n ->
  py_int (max_pages_text params) = Ok m ->
  exists p,
    request_parameters params = Ok p
    /\ 1 <= page_size p <= 200000
    /\ (n < 1 -> page_size p = 1)
    /\ (1 <= n <= 200000 -> page_size p = n)
    /\ (200000 < n -> page_size p = 200000)
    /\ 0 <= max_pages p
    /\ (m < 0 -> max_pages p = 0)
    /\ (0 <= m -> max_pages p = m)
    /\ (params !! "pageSize" = Some "-5" -> page_size p = 1)
    /\ (params !! "pageSize" = Some "999999999" -> page_size p = 200000).
Proof.
  intros Hn Hm.
  destruct (request_parameters_total params n m Hn Hm) as [p Hp].
  exists p. split; [exact Hp|].
  destruct (request_parameters_inv params p Hp) as [n' [m' [Hn' [Hm' [Hps Hmp]]]]].
  rewrite Hn in Hn'. injection Hn' as <-.
  rewrite Hm in Hm'. injection Hm' as <-.
  repeat split; try lia.
  - intros Hs. unfold page_size_text in Hn. rewrite Hs in Hn.
    vm_compute in Hn. injection Hn as <-. rewrite Hps. reflexivity.
  - intros Hs. unfold page_size_text in Hn. rewrite Hs in Hn.
    vm_compute in Hn. injection Hn as <-. rewrite Hps. reflexivity.
Qed.

Lemma page_size_and_max_pages_clamped_witness :
  exists p,
    request_parameters {[ "pageSize" := "-5"; "maxPages" := "-2" ]} = Ok p
    /\ page_size p = 1 /\ max_pages p = 0.
Proof.
  destruct (page_size_and_max_pages_clamped
              {[ "pageSize" := "-5"; "maxPages" := "-2" ]} (-5) (-2))
    as [p [Hp [_ [Hlow [_ [_ [_ [Hneg _]]]]]]]].
  - reflexivity.
  - reflexivity.
  - exists p. split; [exact Hp|]. split; [apply Hlow | apply Hneg]; lia.
Defined.

Example page_size_above_ceiling :
  request_parameters {[ "pageSize" := "999999999" ]}
  = Ok {| page_size := 200000; max_pages := 5; reorganize := true |}.
Proof. reflexivity. Qed.

Example page_size_not_a_number :
  validation_status (request_parameters {[ "pageSize" := "ten" ]}) = Some 400.
Proof. reflexivity. Qed.

End EntryPointFacts.

(** ** The retry policy *)

Module TransportFacts.
Import Transport.



Lemma urlopen_forced r method server :
  is_method_retryable r method = true ->
  (forall n, mem_Z (status_code (server n)) (status_forcelist r) = true) ->
  forall remaining sent,
    urlopen r remaining method server sent = (sent + remaining + 1, MaxRetryError)%nat.
Proof.
  intros Hm Hs. induction remaining as [|remaining IH]; intros sent; simpl;
    unfold is_retry; rewrite Hm, (Hs sent); simpl.
  - f_equal. lia.
  - rewrite IH. f_equal. lia.
Qed.

(** Whatever the session delivers was not to be retried. *)
Lemma urlopen_delivered r method server :
  forall remaining sent n resp,
    urlopen r remaining method server sent = (n, Delivered resp) ->
    mem_Z (status_code resp) (status_forcelist r) = true ->
    is_method_retryable r method = false.
Proof.
  induction remaining as [|remaining IH]; intros sent n resp; simpl;
    destruct (is_retry r _ method _ _) eqn:Hretry; try discriminate;
    try (apply IH).
  - intros [= _ <-] Hforced. unfold is_retry in Hretry. rewrite Hforced in Hretry.
    simpl in Hretry. rewrite andb_true_r in Hretry. exact Hretry.
  - intros [= _ <-] Hforced. unfold is_retry in Hretry. rewrite Hforced in Hretry.
    simpl in Hretry. rewrite andb_true_r in Hretry. exact Hretry.
Qed.

Lemma retryable_methods method :
  is_method_retryable retry_strategy method = true <->
  str_upper method = "GET" \/ str_upper method = "POST".
Proof.
  unfold is_method_retryable. simpl. rewrite !orb_true_iff, !String.eqb_eq.
  split.
  - intros [H | [H | H]]; [left | right | discriminate H]; exact H.
  - intros [H | H]; [left | right; left]; exact H.
Qed.

Lemma forced_statuses status :
  mem_Z status (status_forcelist retry_strategy) = true <->
  In status [429; 500; 502; 503; 504]%Z.
Proof.
  unfold mem_Z. simpl. rewrite !orb_true_iff, !Z.eqb_eq.
  split.
  - intros [H | [H | [H | [H | [H | H]]]]]; try discriminate H; subst; tauto.
  - intros [H | [H | [H | [H | [H | []]]]]]; subst; tauto.
Qed.




(** A GET through the session never comes back as an [HTTPError] with one
    of the forced statuses: such an answer is retried, and when the retries
    are used up the caller gets a [RequestException] instead. *)
Lemma session_get_never_forced_status server resp :
  session_call "GET" server = HttpError resp ->
  ~ In (status_code resp) [429; 500; 502; 503; 504]%Z.
Proof.
  unfold session_call, session_request.
  destruct (urlopen retry_strategy (total retry_strategy) "GET" server 0)
    as [n d] eqn:Hopen.
  destruct d as [delivered|]; simpl; [|discriminate].
  destruct ((400 <=? status_code delivered)%Z && (status_code delivered <? 600)%Z);
    [|discriminate].
  intros [= <-] Hin. apply forced_statuses in Hin.
  pose proof (urlopen_delivered _ _ _ _ _ _ _ Hopen Hin) as Hno.
  discriminate Hno.
Qed.

Lemma session_get_forced_fails server :
  (forall n, In (status_code (server n)) [429; 500; 502; 503; 504]%Z) ->
  session_call "GET" server = RequestFailed.
Proof.
  intros H. unfold session_call, session_request.
  rewrite (urlopen_forced retry_strategy "GET" server); [reflexivity | reflexivity |].
  intros n. apply forced_statuses, H.
Qed.

End TransportFacts.

(** ** The token cache *)

Module TokenCacheFacts.
Import TokenCache.

Lemma Qgt_bool_true (a b : Q) : Qgt_bool a b = true <-> (b < a)%Q.
Proof.
  unfold Qgt_bool. rewrite negb_true_iff. split.
  - intros H. apply Qnot_le_lt. intros Hle.
    apply Qle_bool_iff in Hle. congruence.
  - intros H. destruct (Qle_bool a b) eqn:E; [|reflexivity].
    apply Qle_bool_iff in E. exfalso. exact (Qlt_not_le _ _ H E).
Qed.

Section Call.
Variable e : env.
Variables tenant_id client_id client_secret resource_app_id_uri : string.

Abbreviation key := (cache_key_of tenant_id client_id resource_app_id_uri).
Abbreviation get_token :=
  (_get_cached_token e tenant_id client_id client_secret resource_app_id_uri).

(** A fresh entry is served: no request, no change to the cache. *)
Lemma get_cached_token_hit st entry :
  token_cache st !! key = Some entry ->
  (clock e (clock_reads st) + 300 < expires_at entry)%Q ->
  get_token st =
  (Ok (token entry),
   {| token_cache := token_cache st;
      clock_reads := S (clock_reads st);
      token_requests := token_requests st |}).
Proof.
  intros Hget Hfresh. apply Qgt_bool_true in Hfresh.
  unfold _get_cached_token. rewrite Hget. simpl. rewrite Hfresh. reflexivity.
Qed.

(** A call that returns a token either served a fresh entry or posted one
    request and stored what it got. *)
Lemma get_cached_token_inv st tok st1 :
  get_token st = (Ok tok, st1) ->
  (exists entry,
      token_cache st !! key = Some entry
      /\ (clock e (clock_reads st) + 300 < expires_at entry)%Q
      /\ tok = token entry
      /\ token_cache st1 = token_cache st
      /\ token_requests st1 = token_requests st)
  \/ (exists request reads,
        token_requests st1 = token_requests st ++ [request]
        /\ clock_reads st1 = S reads
        /\ token_cache st1 =
           <[key := {| token := tok; expires_at := clock e reads + 3600 |}]>
             (token_cache st)).
Proof.
  unfold _get_cached_token, _fetch_aad_token, time_time.
  destruct (token_cache st !! key) as [entry|] eqn:Hget; simpl.
  - destruct (Qgt_bool (expires_at entry) (clock e (clock_reads st) + 300)) eqn:Hfresh.
    + intros [= <- <-]. left. exists entry. simpl.
      apply Qgt_bool_true in Hfresh. auto.
    + destruct (identity_provider e (token_requests st) _) as [?| |body];
        try discriminate.
      destruct body as [| | | | | |payload]; try discriminate.
      destruct (dict_get payload "access_token") as [access_token|]; [|discriminate].
      intros [= <- <-]. right. eexists _, _. simpl. eauto.
  - destruct (identity_provider e (token_requests st) _) as [?| |body];
      try discriminate.
    destruct body as [| | | | | |payload]; try discriminate.
    destruct (dict_get payload "access_token") as [access_token|]; [|discriminate].
    intros [= <- <-]. right. eexists _, _. simpl. eauto.
Qed.
End Call.

(** C4.  A call that returns a token without posting a request to the
    identity provider found an entry whose expiry exceeded the clock reading
    plus 300 seconds, and returned that entry's token.  After any call that
    returned a token, the cache holds it under the credentials' key (with
    expiry one hour after the clock reading at storage, when it was newly
    issued); a second call with the same credentials whose clock reading
    plus 300 is still below that expiry returns the identical token, posts
    nothing and leaves the cache as it is. *)
Theorem cached_token_served_within_buffer
        (e : env) (tenant_id client_id client_secret resource_app_id_uri : string)
        (st st1 : state) (tok : json) :
  _get_cached_token e tenant_id client_id client_secret resource_app_id_uri st
  = (Ok tok, st1) ->
  (token_requests st1 = token_requests st ->
   exists entry,
     token_cache st !! cache_key_of tenant_id client_id resource_app_id_uri = Some entry
     /\ (clock e (clock_reads st) + 300 < expires_at entry)%Q
     /\ tok = token entry)
  /\ exists entry,
      token_cache st1 !! cache_key_of tenant_id client_id resource_app_id_uri = Some entry
      /\ token entry = tok
      /\ (token_requests st1 <> token_requests st ->
          exists reads,
            clock_reads st1 = S reads /\ expires_at entry = (clock e reads + 3600)%Q)
      /\ ((clock e (clock_reads st1) + 300 < expires_at entry)%Q ->
          exists st2,
            _get_cached_token e tenant_id client_id client_secret resource_app_id_uri st1
            = (Ok tok, st2)
            /\ token_requests st2 = token_requests st1
            /\ token_cache st2 = token_cache st1).
Proof.
  intros Hcall.
  destruct (get_cached_token_inv e _ _ _ _ st tok st1 Hcall)
    as [[entry [Hget [Hfresh [Htok [Hcache Hreqs]]]]]
       | [request [reads [Hreqs [Hreads Hcache]]]]].
  - split; [intros _; exists entry; auto|].
    exists entry. split; [rewrite Hcache; exact Hget|]. split; [auto|].
    split; [intros Hne; contradiction|].
    intros Hfresh1.
    exists {| token_cache := token_cache st1;
              clock_reads := S (clock_reads st1);
              token_requests := token_requests st1 |}.
    split; [|split; reflexivity].
    rewrite (get_cached_token_hit e _ _ _ _ st1 entry);
      [subst tok; reflexivity | | exact Hfresh1].
    rewrite Hcache. exact Hget.
  - split.
    { intros Heq. rewrite Heq in Hreqs.
      apply (f_equal (@length _)) in Hreqs. rewrite length_app in Hreqs. simpl in Hreqs. lia. }
    eexists. split; [rewrite Hcache; apply lookup_insert_eq|].
    split; [reflexivity|]. split; [intros _; exists reads; auto|].
    simpl. intros Hfresh1.
    exists {| token_cache := token_cache st1;
              clock_reads := S (clock_reads st1);
              token_requests := token_requests st1 |}.
    split; [|split; reflexivity].
    rewrite (get_cached_token_hit e _ _ _ _ st1
               {| token := tok; expires_at := clock e reads + 3600 |});
      [reflexivity | | exact Hfresh1].
    rewrite Hcache. apply lookup_insert_eq.
Qed.

(** Two calls ten seconds apart: one request to the provider, one token. *)
Lemma cached_token_served_within_buffer_witness :
  exists st1 st2,
    _get_cached_token sample_env "t" "c" "s" "r" empty_state = (Ok (JStr "tok-1"), st1)
    /\ _get_cached_token sample_env "t" "c" "s" "r" st1 = (Ok (JStr "tok-1"), st2)
    /\ length (token_requests st1) = 1%nat
    /\ token_requests st2 = token_requests st1.
Proof.
  destruct (_get_cached_token sample_env "t" "c" "s" "r" empty_state)
    as [r1 st1] eqn:Hfirst.
  assert (Hr1 : r1 = Ok (JStr "tok-1")).
  { vm_compute in Hfirst. injection Hfirst as <- _. reflexivity. }
  subst r1.
  destruct (cached_token_served_within_buffer sample_env "t" "c" "s" "r"
              empty_state st1 (JStr "tok-1") Hfirst)
    as [_ [entry [Hentry [Htok [Hnew Hsecond]]]]].
  assert (Hlen : length (token_requests st1) = 1%nat).
  { vm_compute in Hfirst. injection Hfirst as <-. reflexivity. }
  destruct Hnew as [reads [Hreads Hexp]].
  { intros Heq. rewrite Heq in Hlen. simpl in Hlen. discriminate Hlen. }
  assert (Hst1 : clock_reads st1 = 1%nat).
  { vm_compute in Hfirst. injection Hfirst as <-. reflexivity. }
  rewrite Hst1 in Hreads. injection Hreads as <-.
  destruct Hsecond as [st2 [Hcall2 [Hreq2 _]]].
  { rewrite Hexp, Hst1. vm_compute. reflexivity. }
  exists st1, st2. auto.
Defined.

End TokenCacheFacts.

(** ** The page loop *)

Module FetcherFacts.
Import Fetcher.

Section Loop.
Variable api : source.
Variable hdrs : list (string * string).

(** The loop body succeeds exactly on a page of the source. *)
Lemma fetch_page_Ok st page next :
  page_at api hdrs (requests st) (current_url st) = Some (page, next) ->
  fetch_page api hdrs st = Ok (after_page hdrs st page next).
Proof.
  unfold fetch_page, page_at, next_request.
  destruct (api (requests st) _) as [?| |payload]; try discriminate.
  destruct payload as [| | | | | |response_data]; try discriminate.
  destruct (py_iter (dict_get_or response_data "value" (JArr []))); [|discriminate].
  intros [= <- <-]. reflexivity.
Qed.

Lemma fetch_page_Ok_inv st st' :
  fetch_page api hdrs st = Ok st' ->
  exists page next,
    page_at api hdrs (requests st) (current_url st) = Some (page, next)
    /\ st' = after_page hdrs st page next.
Proof.
  unfold fetch_page, page_at, next_request.
  destruct (api (requests st) _) as [?| |payload]; try discriminate.
  destruct payload as [| | | | | |response_data]; try discriminate.
  destruct (py_iter (dict_get_or response_data "value" (JArr []))) as [page|];
    [|discriminate].
  intros [= <-]. eexists _, _. split; reflexivity.
Qed.

(** When the loop comes to an end, its condition is false. *)
Lemma fetch_loop_exit max_pages fuel :
  forall st st',
    fetch_loop fuel api hdrs max_pages st = Some (Ok st') ->
    loop_test max_pages st' = false.
Proof.
  induction fuel as [|fuel IH]; intros st st'; simpl;
    destruct (loop_test max_pages st) eqn:Htest; try discriminate;
    try (intros [= <-]; exact Htest).
  destruct (fetch_page api hdrs st) as [st1|err]; [apply IH | discriminate].
Qed.

(** The page counter never passes a positive limit. *)
Lemma fetch_loop_within_limit max_pages fuel :
  (0 < max_pages)%Z ->
  forall st st',
    fetch_loop fuel api hdrs max_pages st = Some (Ok st') ->
    (Z.of_nat (pages_fetched st) <= max_pages)%Z ->
    (Z.of_nat (pages_fetched st') <= max_pages)%Z.
Proof.
  intros Hpos.
  induction fuel as [|fuel IH]; intros st st'; simpl;
    destruct (loop_test max_pages st) eqn:Htest; try discriminate;
    try (intros [= <-]; auto).
  destruct (fetch_page api hdrs st) as [st1|err] eqn:Hpage; [|discriminate].
  intros Hrun Hle. apply (IH st1 st' Hrun).
  destruct (fetch_page_Ok_inv st st1 Hpage) as [page [next [_ ->]]]. simpl.
  unfold loop_test in Htest. apply andb_prop in Htest as [_ Htest].
  apply orb_prop in Htest as [H0 | Hlt]; [apply Z.eqb_eq in H0 | apply Z.ltb_lt in Hlt]; lia.
Qed.

(** Where the final cursor comes from: either the loop body never ran, or
    the cursor is the one carried by the page fetched last; and one GET
    goes out per page counted. *)
Lemma fetch_loop_cursor max_pages fuel :
  forall st st',
    fetch_loop fuel api hdrs max_pages st = Some (Ok st') ->
    (st' = st
     \/ exists log cursor page,
         requests st' = log ++ [{| url := cursor; headers := hdrs |}]
         /\ page_at api hdrs log cursor = Some (page, current_url st'))
    /\ (length (requests st') - length (requests st)
        = pages_fetched st' - pages_fetched st)%nat
    /\ (pages_fetched st <= pages_fetched st')%nat
    /\ (length (requests st) <= length (requests st'))%nat.
Proof.
  induction fuel as [|fuel IH]; intros st st'; simpl;
    destruct (loop_test max_pages st) eqn:Htest; try discriminate;
    try (intros [= <-]; repeat split; auto; lia).
  destruct (fetch_page api hdrs st) as [st1|err] eqn:Hpage; [|discriminate].
  intros Hrun. destruct (IH st1 st' Hrun) as [Hcur [Hlen [Hmono Hlog]]].
  destruct (fetch_page_Ok_inv st st1 Hpage) as [page [next [Hat Hst1]]].
  assert (Hreq1 : length (requests st1) = S (length (requests st))).
  { subst st1. simpl. rewrite length_app. simpl. lia. }
  assert (Hpg1 : pages_fetched st1 = S (pages_fetched st)).
  { subst st1. reflexivity. }
  repeat split; try lia.
  right. destruct Hcur as [-> | Hcur]; [|exact Hcur].
  exists (requests st), (current_url st), page.
  subst st1. simpl. split; [reflexivity | exact Hat].
Qed.

(** While the source serves pages with cursors and the limit allows, [k]
    turns of the loop are [k] pages fetched. *)
Lemma fetch_loop_advance max_pages k :
  forall st fuel,
    serves_pages api hdrs (requests st) (current_url st) k = true ->
    py_bool (current_url st) = true ->
    (max_pages = 0 \/ Z.of_nat (pages_fetched st + k) <= max_pages)%Z ->
    fetch_loop (k + fuel) api hdrs max_pages st
    = fetch_loop fuel api hdrs max_pages (advance api hdrs st k)
    /\ py_bool (current_url (advance api hdrs st k)) = true
    /\ pages_fetched (advance api hdrs st k) = (pages_fetched st + k)%nat
    /\ length (requests (advance api hdrs st k)) = (length (requests st) + k)%nat
    /\ all_vulnerabilities (advance api hdrs st k)
       = all_vulnerabilities st
         ++ records_of_pages api hdrs (requests st) (current_url st) k.
Proof.
  induction k as [|k IH]; intros st fuel Hserves Hurl Hlimit.
  - simpl. rewrite app_nil_r. repeat split; auto.
  - cbn [serves_pages] in Hserves.
    destruct (page_at api hdrs (requests st) (current_url st)) as [[page next]|] eqn:Hat;
      [|discriminate Hserves].
    apply andb_prop in Hserves as [Hnext Hserves].
    assert (Htest : loop_test max_pages st = true).
    { unfold loop_test. rewrite Hurl. simpl. apply orb_true_iff.
      destruct Hlimit as [-> | Hle]; [left; reflexivity | right; apply Z.ltb_lt; lia]. }
    pose proof (fetch_page_Ok st page next Hat) as Hpage.
    cbn [Nat.add fetch_loop advance records_of_pages]. rewrite Htest, Hpage, Hat.
    destruct (IH (after_page hdrs st page next) fuel) as [Hrun [Hu [Hp [Hr Ha]]]].
    + exact Hserves.
    + exact Hnext.
    + simpl. destruct Hlimit as [-> | Hle]; [left; reflexivity | right; lia].
    + rewrite Hrun, Hu, Hp, Hr, Ha. simpl. rewrite length_app, <- app_assoc. simpl.
      repeat split; auto; lia.
Qed.

(** Without a limit the loop stops at the first page that has no cursor. *)
Lemma fetch_loop_unlimited k :
  forall st fuel,
    ends_after api hdrs (requests st) (current_url st) k = true ->
    fetch_loop (k + fuel) api hdrs 0 st = Some (Ok (advance api hdrs st k))
    /\ py_bool (current_url (advance api hdrs st k)) = false
    /\ pages_fetched (advance api hdrs st k) = (pages_fetched st + k)%nat
    /\ length (requests (advance api hdrs st k)) = (length (requests st) + k)%nat
    /\ all_vulnerabilities (advance api hdrs st k)
       = all_vulnerabilities st
         ++ records_of_pages api hdrs (requests st) (current_url st) k.
Proof.
  induction k as [|k IH]; intros st fuel Hends.
  - simpl in Hends. apply negb_true_iff in Hends.
    assert (Htest : loop_test 0 st = false) by (unfold loop_test; rewrite Hends; reflexivity).
    simpl. rewrite app_nil_r.
    destruct fuel; simpl; rewrite Htest; repeat split; auto.
  - cbn [ends_after] in Hends. apply andb_prop in Hends as [Hurl Hends].
    destruct (page_at api hdrs (requests st) (current_url st)) as [[page next]|] eqn:Hat;
      [|discriminate Hends].
    assert (Htest : loop_test 0 st = true) by (unfold loop_test; rewrite Hurl; reflexivity).
    pose proof (fetch_page_Ok st page next Hat) as Hpage.
    cbn [Nat.add fetch_loop advance records_of_pages]. rewrite Htest, Hpage, Hat.
    destruct (IH (after_page hdrs st page next) fuel Hends) as [Hrun [Hu [Hp [Hr Ha]]]].
    rewrite Hrun, Hu, Hp, Hr, Ha. simpl. rewrite length_app, <- app_assoc. simpl.
    repeat split; auto; lia.
Qed.

(** A source whose cursors never end keeps an unlimited loop going. *)
Lemma fetch_loop_endless fuel :
  forall st,
    (forall k, serves_pages api hdrs (requests st) (current_url st) k = true) ->
    py_bool (current_url st) = true ->
    fetch_loop fuel api hdrs 0 st = None.
Proof.
  induction fuel as [|fuel IH]; intros st Hserves Hurl;
    assert (Htest : loop_test 0 st = true) by (unfold loop_test; rewrite Hurl; reflexivity);
    simpl; rewrite Htest; [reflexivity|].
  pose proof (Hserves 1%nat) as H1. cbn [serves_pages] in H1.
  destruct (page_at api hdrs (requests st) (current_url st)) as [[page next]|] eqn:Hat;
    [|discriminate H1].
  apply andb_prop in H1 as [Hnext _].
  rewrite (fetch_page_Ok st page next Hat). apply IH; [|exact Hnext].
  intros k. specialize (Hserves (S k)). cbn [serves_pages] in Hserves.
  rewrite Hat in Hserves. apply andb_prop in Hserves as [_ Hserves]. exact Hserves.
Qed.
End Loop.

Lemma initial_url_truthy page_size : py_bool (current_url (initial_state page_size)) = true.
Proof. reflexivity. Qed.

(** C1.  For a fetch with a non-negative page limit that returns a result:
    has_more_data is true exactly when the limit is positive, the page
    counter has reached it and a cursor is still there (a null or empty
    link is no cursor); that cursor is the one carried by the page fetched
    last; with limit 0 has_more_data is false, and so it is whenever the
    page fetched last carried no cursor. *)
Theorem has_more_data_iff_limit_reached
        (fuel : nat) (api : source) (access_token : string)
        (page_size max_pages : Z) (st : loop_state) :
  (0 <= max_pages)%Z ->
  fetch_run fuel api access_token page_size max_pages = Some (Ok st) ->
  _fetch_mdvm_vulnerabilities fuel api access_token page_size max_pages
  = Some (Ok (result_of st))
  /\ (has_more_data (result_of st) = true <->
      (0 < max_pages)%Z
      /\ Z.of_nat (pages_fetched st) = max_pages
      /\ py_bool (current_url st) = true)
  /\ (exists log cursor page,
        requests st = log ++ [{| url := cursor; headers := request_headers access_token |}]
        /\ page_at api (request_headers access_token) log cursor
           = Some (page, current_url st))
  /\ (max_pages = 0%Z -> has_more_data (result_of st) = false)
  /\ (forall log cursor page next,
        requests st = log ++ [{| url := cursor; headers := request_headers access_token |}] ->
        page_at api (request_headers access_token) log cursor = Some (page, next) ->
        py_bool next = false ->
        has_more_data (result_of st) = false).
Proof.
  intros Hnonneg Hrun.
  unfold _fetch_mdvm_vulnerabilities. rewrite Hrun.
  unfold fetch_run in Hrun.
  pose proof (fetch_loop_exit api _ max_pages fuel _ _ Hrun) as Hexit.
  pose proof (fetch_loop_cursor api _ max_pages fuel _ _ Hrun) as [Hcur _].
  assert (Hcursor : exists log cursor page,
             requests st = log ++ [{| url := cursor;
                                      headers := request_headers access_token |}]
             /\ page_at api (request_headers access_token) log cursor
                = Some (page, current_url st)).
  { destruct Hcur as [-> | Hcur]; [|exact Hcur].
    exfalso. unfold loop_test in Hexit. simpl in Hexit.
    apply orb_false_elim in Hexit as [H0 Hlt].
    apply Z.eqb_neq in H0. apply Z.ltb_ge in Hlt. lia. }
  assert (Hmore : py_bool (current_url st) = true ->
                  (0 < max_pages)%Z /\ Z.of_nat (pages_fetched st) = max_pages).
  { intros Hurl. unfold loop_test in Hexit. rewrite Hurl in Hexit. simpl in Hexit.
    apply orb_false_elim in Hexit as [H0 Hlt].
    apply Z.eqb_neq in H0. apply Z.ltb_ge in Hlt.
    assert (Hpos : (0 < max_pages)%Z) by lia.
    split; [exact Hpos|].
    pose proof (fetch_loop_within_limit api _ max_pages fuel Hpos _ _ Hrun) as Hle.
    simpl in Hle. lia. }
  split; [reflexivity|]. split.
  { simpl. split; [intros Hurl; destruct (Hmore Hurl); auto | intros [_ [_ H]]; exact H]. }
  split; [exact Hcursor|]. split.
  { intros ->. simpl. destruct (py_bool (current_url st)); [|reflexivity].
    destruct (Hmore eq_refl) as [Hpos _]. lia. }
  intros log cursor page next Hlog Hat Hnext.
  destruct Hcursor as [log' [cursor' [page' [Hlog' Hat']]]].
  rewrite Hlog in Hlog'. apply app_inj_tail in Hlog' as [-> [= ->]].
  rewrite Hat in Hat'. injection Hat' as _ ->. exact Hnext.
Qed.

Lemma has_more_data_iff_limit_reached_witness :
  exists st,
    fetch_run 5 three_pages "tok" 10 2 = Some (Ok st)
    /\ has_more_data (result_of st) = true
    /\ pages_fetched st = 2%nat.
Proof.
  eexists. split; [reflexivity|].
  destruct (has_more_data_iff_limit_reached 5 three_pages "tok" 10 2 _
              ltac:(lia) eq_refl) as [_ [Hiff _]].
  split; [|reflexivity].
  apply Hiff. repeat split; reflexivity.
Defined.

(** C2.  With a limit N > 0 and a source that serves N pages each carrying a
    cursor, the loop, given fuel for N turns, issues exactly N GETs, counts N
    pages, holds their records and stops with has_more_data true.  With limit
    0 and a source whose k-th page is the first without a cursor, the loop
    issues exactly k GETs, whatever k is, holds the records of all k pages and
    stops with has_more_data false; and against a source whose cursors never
    end it does not stop. *)
Theorem fetch_loop_page_limit
        (api : source) (access_token : string) (page_size : Z) :
  (forall N fuel,
      (0 < N)%nat ->
      serves_pages api (request_headers access_token) []
                   (current_url (initial_state page_size)) N = true ->
      (N <= fuel)%nat ->
      exists st,
        fetch_run fuel api access_token page_size (Z.of_nat N) = Some (Ok st)
        /\ length (requests st) = N
        /\ pages_fetched st = N
        /\ has_more_data (result_of st) = true
        /\ all_vulnerabilities st
           = records_of_pages api (request_headers access_token) []
                              (current_url (initial_state page_size)) N)
  /\ (forall k fuel,
        ends_after api (request_headers access_token) []
                   (current_url (initial_state page_size)) k = true ->
        (k <= fuel)%nat ->
        exists st,
          fetch_run fuel api access_token page_size 0 = Some (Ok st)
          /\ length (requests st) = k
          /\ pages_fetched st = k
          /\ has_more_data (result_of st) = false
          /\ all_vulnerabilities st
             = records_of_pages api (request_headers access_token) []
                                (current_url (initial_state page_size)) k)
  /\ ((forall k, serves_pages api (request_headers access_token) []
                              (current_url (initial_state page_size)) k = true) ->
      forall fuel, fetch_run fuel api access_token page_size 0 = None).
Proof.
  split; [|split].
  - intros N fuel HN Hserves Hfuel.
    set (hdrs := request_headers access_token) in *.
    set (st0 := initial_state page_size) in *.
    destruct (fetch_loop_advance api hdrs (Z.of_nat N) N st0 (fuel - N) Hserves
                (initial_url_truthy page_size))
      as [Hrun [Hu [Hp [Hr Ha]]]]; [right; simpl; lia|].
    exists (advance api hdrs st0 N).
    unfold fetch_run. fold hdrs. fold st0.
    replace fuel with (N + (fuel - N))%nat at 1 by lia.
    rewrite Hrun.
    assert (Htest : loop_test (Z.of_nat N) (advance api hdrs st0 N) = false).
    { unfold loop_test. rewrite Hu, Hp. simpl.
      apply orb_false_iff. split; [apply Z.eqb_neq | apply Z.ltb_ge]; lia. }
    split; [destruct (fuel - N)%nat; simpl; rewrite Htest; reflexivity|].
    simpl in Hr, Hp, Ha. auto.
  - intros k fuel Hends Hfuel.
    set (hdrs := request_headers access_token) in *.
    set (st0 := initial_state page_size) in *.
    destruct (fetch_loop_unlimited api hdrs k st0 (fuel - k) Hends)
      as [Hrun [Hu [Hp [Hr Ha]]]].
    exists (advance api hdrs st0 k).
    unfold fetch_run. fold hdrs. fold st0.
    replace fuel with (k + (fuel - k))%nat at 1 by lia.
    simpl in Hr, Hp, Ha. auto.
  - intros Hserves fuel. unfold fetch_run.
    apply fetch_loop_endless; [exact Hserves | reflexivity].
Qed.

Lemma endless_serves hdrs k :
  forall log cursor, serves_pages endless hdrs log cursor k = true.
Proof. induction k as [|k IH]; intros log cursor; simpl; [reflexivity | apply IH]. Qed.

Lemma fetch_loop_page_limit_witness :
  (exists st,
      fetch_run 2 three_pages "tok" 10 2 = Some (Ok st)
      /\ length (requests st) = 2%nat
      /\ has_more_data (result_of st) = true)
  /\ (exists st,
        fetch_run 3 three_pages "tok" 10 0 = Some (Ok st)
        /\ length (requests st) = 3%nat
        /\ has_more_data (result_of st) = false
        /\ all_vulnerabilities st = map JInt [1; 2; 3; 4; 5]%Z)
  /\ fetch_run 1000 endless "tok" 10 0 = None.
Proof.
  split; [|split].
  - destruct (fetch_loop_page_limit three_pages "tok" 10) as [Hlimit _].
    destruct (Hlimit 2%nat 2%nat) as [st [Hrun [Hreq [_ [Hmore _]]]]];
      [lia | reflexivity | lia |].
    exists st. auto.
  - destruct (fetch_loop_page_limit three_pages "tok" 10) as [_ [Hall _]].
    destruct (Hall 3%nat 3%nat) as [st [Hrun [Hreq [_ [Hmore Hrec]]]]];
      [reflexivity | lia |].
    exists st. rewrite Hrec. auto.
  - destruct (fetch_loop_page_limit endless "tok" 10) as [_ [_ Hnever]].
    apply Hnever. intros k. apply endless_serves.
Defined.

(** The [except HTTPError] clause on a 429 response: the message carries the
    text of the Retry-After header, and 60 when there is none. *)
Lemma rate_limit_branch_message
      (api : source) (hdrs : list (string * string)) (max_pages : Z)
      (st : loop_state) (fuel : nat) (resp : response) :
  loop_test max_pages st = true ->
  api (requests st) (next_request hdrs st) = HttpError resp ->
  status_code resp = 429%Z ->
  fetch_loop (S fuel) api hdrs max_pages st
  = Some (Raise (RuntimeError
                   ("Rate limit exceeded. Please retry after "
                    +:+ default "60" (header_get (response_headers resp) "Retry-After")
                    +:+ " seconds."))).
Proof.
  intros Htest Hresp Hstatus.
  simpl. rewrite Htest. unfold fetch_page. rewrite Hresp.
  unfold http_error_message. rewrite Hstatus. reflexivity.
Qed.

Example rate_limit_branch_45 :
  _fetch_mdvm_vulnerabilities 1 (rate_limited (Some "45")) "tok" 10 5
  = Some (Raise (RuntimeError "Rate limit exceeded. Please retry after 45 seconds.")).
Proof. reflexivity. Qed.

Example rate_limit_branch_default :
  _fetch_mdvm_vulnerabilities 1 (rate_limited None) "tok" 10 5
  = Some (Raise (RuntimeError "Rate limit exceeded. Please retry after 60 seconds.")).
Proof. reflexivity. Qed.

(** Through the session, the loop body raises no message that starts like
    the rate-limit one. *)
Lemma fetch_page_through_session_message server hdrs st msg :
  fetch_page (through_session server) hdrs st = Raise (RuntimeError msg) ->
  String.get 0 msg <> Some "R"%char.
Proof.
  unfold fetch_page, through_session.
  destruct (Transport.session_call "GET" (server (next_request hdrs st)))
    as [resp| |payload] eqn:Hcall.
  - intros [= <-].
    pose proof (TransportFacts.session_get_never_forced_status _ _ Hcall) as Hnot.
    unfold http_error_message.
    destruct (status_code resp =? 401)%Z; [discriminate|].
    destruct (status_code resp =? 403)%Z; [discriminate|].
    destruct (status_code resp =? 429)%Z eqn:H429.
    + apply Z.eqb_eq in H429. exfalso. apply Hnot. rewrite H429. simpl. tauto.
    + destruct ((500 <=? status_code resp)%Z && (status_code resp <? 600)%Z);
        discriminate.
  - intros [= <-]. discriminate.
  - destruct payload as [| | | | | |response_data]; try discriminate.
    destruct (py_iter (dict_get_or response_data "value" (JArr []))); discriminate.
Qed.

Lemma fetch_loop_through_session_message server hdrs max_pages fuel :
  forall st msg,
    fetch_loop fuel (through_session server) hdrs max_pages st
    = Some (Raise (RuntimeError msg)) ->
    String.get 0 msg <> Some "R"%char.
Proof.
  induction fuel as [|fuel IH]; intros st msg; simpl;
    destruct (loop_test max_pages st); try discriminate.
  destruct (fetch_page (through_session server) hdrs st) as [st1|err] eqn:Hpage.
  - apply IH.
  - intros [= ->]. eapply fetch_page_through_session_message; exact Hpage.
Qed.

(** C8.  What the code does when a page request ends in status 429.  The
    session retries such a GET and, once the three retries are used up,
    raises a [RequestException] that is no [HTTPError]; so the fetch raises
    the connection error of line 206, not the rate-limit error of line 196:
    against an endpoint that answers 429 with Retry-After 45 every time, and
    against any endpoint that always answers 429; and no fetch through the
    session ever raises the rate-limit error, whatever the retry-after
    text. *)
Theorem rate_limit_is_reported_as_connection_failure :
  _fetch_mdvm_vulnerabilities 1 (through_session (fun _ => Transport.always_429)) "tok" 10 5
  = Some (Raise (RuntimeError "Failed to connect to MDVM API."))
  /\ (forall server fuel access_token page_size max_pages,
        (0 <= max_pages)%Z ->
        (forall request n, status_code (server request n) = 429%Z) ->
        _fetch_mdvm_vulnerabilities (S fuel) (through_session server)
                                    access_token page_size max_pages
        = Some (Raise (RuntimeError "Failed to connect to MDVM API.")))
  /\ (forall server fuel access_token page_size max_pages retry_after,
        _fetch_mdvm_vulnerabilities fuel (through_session server)
                                    access_token page_size max_pages
        <> Some (Raise (RuntimeError
                         ("Rate limit exceeded. Please retry after "
                          +:+ retry_after +:+ " seconds.")))).
Proof.
  split; [reflexivity|]. split.
  - intros server fuel access_token page_size max_pages Hnonneg Hserver.
    unfold _fetch_mdvm_vulnerabilities, fetch_run.
    assert (Htest : loop_test max_pages (initial_state page_size) = true).
    { unfold loop_test. simpl. apply orb_true_iff.
      destruct (Z.eq_dec max_pages 0%Z) as [-> | Hne];
        [left; reflexivity | right; apply Z.ltb_lt; lia]. }
    cbn [fetch_loop]. rewrite Htest. unfold fetch_page, through_session.
    rewrite TransportFacts.session_get_forced_fails; [reflexivity|].
    intros n. rewrite Hserver. simpl. tauto.
  - intros server fuel access_token page_size max_pages retry_after.
    unfold _fetch_mdvm_vulnerabilities, fetch_run.
    destruct (fetch_loop fuel (through_session server) (request_headers access_token)
                         max_pages (initial_state page_size))
      as [[st|err]|] eqn:Hrun; try discriminate.
    intros [= ->].
    apply (fetch_loop_through_session_message _ _ _ _ _ _ Hrun). reflexivity.
Qed.

Lemma rate_limit_is_reported_as_connection_failure_witness :
  _fetch_mdvm_vulnerabilities 3 (through_session (fun _ => Transport.always_429)) "tok" 10 0
  = Some (Raise (RuntimeError "Failed to connect to MDVM API.")).
Proof.
  destruct rate_limit_is_reported_as_connection_failure as [_ [Hfail _]].
  apply (Hfail (fun _ => Transport.always_429) 2%nat "tok" 10%Z 0%Z); [lia|].
  intros request n. reflexivity.
Defined.

(** C9.  A page whose body is an object without the value field adds no
    record: the loop body raises nothing, the accumulated records stay as
    they are, the cursor becomes the page's next link and the page is
    counted; the loop then goes on from there. *)
Theorem page_without_value_adds_nothing
        (api : source) (hdrs : list (string * string)) (st : loop_state)
        (response_data : list (string * json)) :
  api (requests st) (next_request hdrs st) = Success (JObj response_data) ->
  dict_get response_data "value" = None ->
  fetch_page api hdrs st
  = Ok {| all_vulnerabilities := all_vulnerabilities st;
          current_url := next_link response_data;
          pages_fetched := S (pages_fetched st);
          requests := requests st ++ [next_request hdrs st] |}
  /\ forall fuel max_pages,
      loop_test max_pages st = true ->
      fetch_loop (S fuel) api hdrs max_pages st
      = fetch_loop fuel api hdrs max_pages
          {| all_vulnerabilities := all_vulnerabilities st;
             current_url := next_link response_data;
             pages_fetched := S (pages_fetched st);
             requests := requests st ++ [next_request hdrs st] |}.
Proof.
  intros Hresp Hvalue.
  assert (Hpage : fetch_page api hdrs st
                  = Ok {| all_vulnerabilities := all_vulnerabilities st;
                          current_url := next_link response_data;
                          pages_fetched := S (pages_fetched st);
                          requests := requests st ++ [next_request hdrs st] |}).
  { unfold fetch_page. rewrite Hresp. unfold dict_get_or at 1. rewrite Hvalue.
    simpl. rewrite app_nil_r. reflexivity. }
  split; [exact Hpage|].
  intros fuel max_pages Htest. simpl. rewrite Htest, Hpage. reflexivity.
Qed.

Lemma page_without_value_adds_nothing_witness :
  fetch_page page_without_value (request_headers "tok") (initial_state 10)
  = Ok {| all_vulnerabilities := [];
          current_url := JStr "https://api/next1";
          pages_fetched := 1;
          requests := [next_request (request_headers "tok") (initial_state 10)] |}
  /\ _fetch_mdvm_vulnerabilities 2 page_without_value "tok" 10 0
     = Some (Ok {| vulnerabilities := [JInt 7];
                   total_count := 1;
                   result_pages_fetched := 2;
                   has_more_data := false |}).
Proof.
  destruct (page_without_value_adds_nothing
              page_without_value (request_headers "tok") (initial_state 10)
              [("@odata.nextLink", JStr "https://api/next1")] eq_refl eq_refl)
    as [Hpage Hloop].
  split; [exact Hpage|].
  unfold _fetch_mdvm_vulnerabilities, fetch_run.
  rewrite (Hloop 1%nat 0%Z eq_refl). reflexivity.
Defined.

End FetcherFacts.

(* ===================================================================== *)
(** * Part III.  Further properties of the code                           *)
(* ===================================================================== *)

(** ** More on the page loop *)

Module FetcherMore.
Import Fetcher FetcherFacts.

Section Loop.
Variable api : source.
Variable hdrs : list (string * string).

(** With a positive limit the loop ends within as many turns as pages are
    left to the limit, whatever the source does. *)
Lemma fetch_loop_bounded max_pages :
  (0 < max_pages)%Z ->
  forall fuel st,
    (max_pages - Z.of_nat (pages_fetched st) <= Z.of_nat fuel)%Z ->
    exists r, fetch_loop fuel api hdrs max_pages st = Some r.
Proof.
  intros Hpos. induction fuel as [|fuel IH]; intros st Hfuel; simpl;
    destruct (loop_test max_pages st) eqn:Htest; try (eexists; reflexivity).
  - exfalso. unfold loop_test in Htest. apply andb_prop in Htest as [_ Htest].
    apply orb_prop in Htest as [H0 | Hlt];
      [apply Z.eqb_eq in H0 | apply Z.ltb_lt in Hlt]; lia.
  - destruct (fetch_page api hdrs st) as [st1|err] eqn:Hpage; [|eexists; reflexivity].
    apply IH. destruct (fetch_page_Ok_inv api hdrs st st1 Hpage) as [page [next [_ ->]]].
    simpl. lia.
Qed.

(** What the loop has gathered when it ends: the records of the pages it
    counted, in the order served. *)
Lemma fetch_loop_records max_pages fuel :
  forall st st',
    fetch_loop fuel api hdrs max_pages st = Some (Ok st') ->
    all_vulnerabilities st'
    = all_vulnerabilities st
      ++ records_of_pages api hdrs (requests st) (current_url st)
                          (pages_fetched st' - pages_fetched st).
Proof.
  induction fuel as [|fuel IH]; intros st st'; simpl;
    destruct (loop_test max_pages st) eqn:Htest; try discriminate;
    try (intros [= <-]; rewrite Nat.sub_diag; simpl; rewrite app_nil_r; reflexivity).
  destruct (fetch_page api hdrs st) as [st1|err] eqn:Hpage; [|discriminate].
  intros Hrun.
  destruct (fetch_page_Ok_inv api hdrs st st1 Hpage) as [page [next [Hat ->]]].
  pose proof (fetch_loop_cursor api hdrs max_pages fuel _ _ Hrun) as [_ [_ [Hmono _]]].
  rewrite (IH _ _ Hrun). simpl in *.
  replace (pages_fetched st' - pages_fetched st)%nat
    with (S (pages_fetched st' - S (pages_fetched st)))%nat by lia.
  cbn [records_of_pages]. rewrite Hat, <- app_assoc. reflexivity.
Qed.

(** A turn of the loop whose GET fails ends the fetch with the error. *)
Lemma fetch_loop_error max_pages fuel st err :
  loop_test max_pages st = true ->
  fetch_page api hdrs st = Raise err ->
  fetch_loop (S fuel) api hdrs max_pages st = Some (Raise err).
Proof. intros Htest Hpage. simpl. rewrite Htest, Hpage. reflexivity. Qed.
End Loop.

(** X1.  With a positive page limit the fetch always comes to an end, within
    as many turns as the limit, whatever the source answers; and a result
    it returns counts one page per GET issued and no more pages than the
    limit. *)
Theorem positive_limit_bounds_the_fetch
        (api : source) (access_token : string) (page_size max_pages : Z) (fuel : nat) :
  (0 < max_pages)%Z ->
  (max_pages <= Z.of_nat fuel)%Z ->
  (exists r, _fetch_mdvm_vulnerabilities fuel api access_token page_size max_pages = Some r)
  /\ (forall st,
        fetch_run fuel api access_token page_size max_pages = Some (Ok st) ->
        length (requests st) = pages_fetched st
        /\ (Z.of_nat (pages_fetched st) <= max_pages)%Z).
Proof.
  intros Hpos Hfuel. split.
  - destruct (fetch_loop_bounded api (request_headers access_token) max_pages Hpos
                fuel (initial_state page_size)) as [r Hr]; [simpl; lia|].
    unfold _fetch_mdvm_vulnerabilities, fetch_run. rewrite Hr.
    destruct r; eexists; reflexivity.
  - intros st Hrun. unfold fetch_run in Hrun.
    pose proof (fetch_loop_cursor api _ max_pages fuel _ _ Hrun) as [_ [Hlen [Hp Hl]]].
    pose proof (fetch_loop_within_limit api _ max_pages fuel Hpos _ _ Hrun) as Hle.
    simpl in *. split; [lia | apply Hle; lia].
Qed.

Lemma positive_limit_bounds_the_fetch_witness :
  exists r, _fetch_mdvm_vulnerabilities 2 endless "tok" 10 2 = Some r.
Proof.
  destruct (positive_limit_bounds_the_fetch endless "tok" 10 2 2) as [Hends _];
    [lia | simpl; lia | exact Hends].
Defined.

(** X2.  A negative page limit stops the loop before its first turn: no GET
    is issued, no record is returned, and has_more_data is true all the
    same, because the initial URL is still in place. *)
Theorem negative_limit_fetches_nothing
        (api : source) (access_token : string) (page_size max_pages : Z) (fuel : nat) :
  (max_pages < 0)%Z ->
  fetch_run fuel api access_token page_size max_pages = Some (Ok (initial_state page_size))
  /\ _fetch_mdvm_vulnerabilities fuel api access_token page_size max_pages
     = Some (Ok {| vulnerabilities := []; total_count := 0;
                   result_pages_fetched := 0; has_more_data := true |}).
Proof.
  intros Hneg.
  assert (Htest : loop_test max_pages (initial_state page_size) = false).
  { unfold loop_test. simpl. apply orb_false_iff.
    split; [apply Z.eqb_neq | apply Z.ltb_ge]; lia. }
  assert (Hrun : fetch_run fuel api access_token page_size max_pages
                 = Some (Ok (initial_state page_size))).
  { unfold fetch_run. destruct fuel; simpl; rewrite Htest; reflexivity. }
  split; [exact Hrun|].
  unfold _fetch_mdvm_vulnerabilities. rewrite Hrun. reflexivity.
Qed.

Lemma negative_limit_fetches_nothing_witness :
  _fetch_mdvm_vulnerabilities 0 three_pages "tok" 10 (-1)
  = Some (Ok {| vulnerabilities := []; total_count := 0;
                result_pages_fetched := 0; has_more_data := true |}).
Proof.
  apply (negative_limit_fetches_nothing three_pages "tok" 10 (-1) 0). lia.
Defined.

(** X3.  Whatever the source and the limit, a returned result is consistent:
    total_count is the number of records, pages_fetched is the number of
    GETs issued, and the records are those of the pages fetched, page after
    page in the order served. *)
Theorem fetch_result_is_consistent
        (fuel : nat) (api : source) (access_token : string)
        (page_size max_pages : Z) (r : fetch_result) :
  _fetch_mdvm_vulnerabilities fuel api access_token page_size max_pages = Some (Ok r) ->
  total_count r = length (vulnerabilities r)
  /\ vulnerabilities r
     = records_of_pages api (request_headers access_token) []
                        (current_url (initial_state page_size)) (result_pages_fetched r)
  /\ exists st,
      fetch_run fuel api access_token page_size max_pages = Some (Ok st)
      /\ r = result_of st
      /\ length (requests st) = result_pages_fetched r.
Proof.
  unfold _fetch_mdvm_vulnerabilities.
  destruct (fetch_run fuel api access_token page_size max_pages) as [[st|err]|] eqn:Hrun;
    try discriminate.
  intros [= <-]. split; [reflexivity|].
  unfold fetch_run in Hrun.
  pose proof (fetch_loop_records api _ max_pages fuel _ _ Hrun) as Hrec.
  pose proof (fetch_loop_cursor api _ max_pages fuel _ _ Hrun) as [_ [Hlen [Hp Hl]]].
  simpl in *. rewrite Nat.sub_0_r in Hrec, Hlen. split; [exact Hrec|].
  exists st. repeat split. lia.
Qed.

Lemma fetch_result_is_consistent_witness :
  vulnerabilities
    {| vulnerabilities := map JInt [1; 2; 3]%Z; total_count := 3;
       result_pages_fetched := 2; has_more_data := true |}
  = records_of_pages three_pages (request_headers "tok") []
                     (current_url (initial_state 10)) 2.
Proof.
  destruct (fetch_result_is_consistent 2 three_pages "tok" 10 2
              {| vulnerabilities := map JInt [1; 2; 3]%Z; total_count := 3;
                 result_pages_fetched := 2; has_more_data := true |} eq_refl)
    as [_ [Hrec _]].
  exact Hrec.
Defined.

End FetcherMore.

(** ** Failures of the page loop *)

Module FetcherErrors.
Import Fetcher FetcherFacts FetcherMore.

(** X4.  A failure on a later page discards what was fetched: when the
    source has served k pages with cursors, the limit allows another page,
    and the next GET comes back as an HTTP error or fails to connect, the
    fetch raises the error for that response and returns no records.  The
    message is the fixed text for 401 and for 403, and names the status for
    the other codes, as a server error from 500 to 599. *)
Theorem later_failure_aborts_the_fetch
        (api : source) (access_token : string) (page_size max_pages : Z)
        (k fuel : nat) :
  serves_pages api (request_headers access_token) []
               (current_url (initial_state page_size)) k = true ->
  (max_pages = 0 \/ Z.of_nat k < max_pages)%Z ->
  (forall resp,
      api (requests (advance api (request_headers access_token) (initial_state page_size) k))
          (next_request (request_headers access_token)
             (advance api (request_headers access_token) (initial_state page_size) k))
      = HttpError resp ->
      _fetch_mdvm_vulnerabilities (k + S fuel) api access_token page_size max_pages
      = Some (Raise (RuntimeError (http_error_message resp))))
  /\ (api (requests (advance api (request_headers access_token) (initial_state page_size) k))
          (next_request (request_headers access_token)
             (advance api (request_headers access_token) (initial_state page_size) k))
      = RequestFailed ->
      _fetch_mdvm_vulnerabilities (k + S fuel) api access_token page_size max_pages
      = Some (Raise (RuntimeError "Failed to connect to MDVM API.")))
  /\ (forall resp,
        (status_code resp = 401%Z ->
         http_error_message resp = "Authentication failed. Token may be invalid or expired.")
        /\ (status_code resp = 403%Z ->
            http_error_message resp = "Access denied. Check API permissions.")
        /\ ((500 <= status_code resp < 600)%Z ->
            http_error_message resp
            = "MDVM API server error: API request failed with status "
              +:+ str_of_int (status_code resp))
        /\ ((status_code resp < 500 \/ 600 <= status_code resp)%Z ->
            status_code resp <> 401%Z -> status_code resp <> 403%Z ->
            status_code resp <> 429%Z ->
            http_error_message resp
            = "API request failed: API request failed with status "
              +:+ str_of_int (status_code resp))).
Proof.
  intros Hserves Hlimit.
  set (hdrs := request_headers access_token) in *.
  set (st0 := initial_state page_size) in *.
  destruct (fetch_loop_advance api hdrs max_pages k st0 (S fuel) Hserves
              (initial_url_truthy page_size))
    as [Hrun [Hurl [Hpages _]]];
    [destruct Hlimit as [-> | Hlt]; [left; reflexivity | right; simpl; lia]|].
  assert (Htest : loop_test max_pages (advance api hdrs st0 k) = true).
  { unfold loop_test. rewrite Hurl, Hpages. simpl. apply orb_true_iff.
    destruct Hlimit as [-> | Hlt]; [left; reflexivity | right; apply Z.ltb_lt; lia]. }
  split; [|split].
  - intros resp Hresp.
    unfold _fetch_mdvm_vulnerabilities, fetch_run. fold hdrs st0. rewrite Hrun.
    rewrite (fetch_loop_error api hdrs max_pages fuel _
               (RuntimeError (http_error_message resp)) Htest); [reflexivity|].
    unfold fetch_page. rewrite Hresp. reflexivity.
  - intros Hresp.
    unfold _fetch_mdvm_vulnerabilities, fetch_run. fold hdrs st0. rewrite Hrun.
    rewrite (fetch_loop_error api hdrs max_pages fuel _
               (RuntimeError "Failed to connect to MDVM API.") Htest); [reflexivity|].
    unfold fetch_page. rewrite Hresp. reflexivity.
  - intros resp. unfold http_error_message. repeat split.
    + intros ->. reflexivity.
    + intros ->. reflexivity.
    + intros Hrange.
      destruct (Z.eqb_spec (status_code resp) 401); [lia|].
      destruct (Z.eqb_spec (status_code resp) 403); [lia|].
      destruct (Z.eqb_spec (status_code resp) 429); [lia|].
      destruct (Z.leb_spec 500 (status_code resp)); [|lia].
      destruct (Z.ltb_spec (status_code resp) 600); [reflexivity | lia].
    + intros Hrange H401 H403 H429.
      destruct (Z.eqb_spec (status_code resp) 401); [contradiction|].
      destruct (Z.eqb_spec (status_code resp) 403); [contradiction|].
      destruct (Z.eqb_spec (status_code resp) 429); [contradiction|].
      destruct (Z.leb_spec 500 (status_code resp));
        destruct (Z.ltb_spec (status_code resp) 600); simpl; try reflexivity; lia.
Qed.

Lemma later_failure_aborts_the_fetch_witness :
  _fetch_mdvm_vulnerabilities 3 Extra.then_unauthorized "tok" 10 0
  = Some (Raise (RuntimeError "Authentication failed. Token may be invalid or expired.")).
Proof.
  destruct (later_failure_aborts_the_fetch Extra.then_unauthorized "tok" 10 0 2 0)
    as [Hhttp _]; [reflexivity | left; reflexivity|].
  exact (Hhttp {| status_code := 401; response_headers := []; body := JNull |} eq_refl).
Defined.



(** X6.  A client error is not retried.  When the data endpoint answers the
    first GET with a status from 400 to 499 other than 429 (and, for 413,
    without a Retry-After header), the session transmits the request once
    and the fetch raises the error for that response: for 401 the
    authentication error, after a single request. *)
Theorem client_error_is_not_retried
        (server : get_request -> Transport.endpoint) (access_token : string)
        (page_size max_pages : Z) (fuel : nat) (resp : response) :
  (0 <= max_pages)%Z ->
  server (next_request (request_headers access_token) (initial_state page_size)) 0%nat
  = resp ->
  (400 <= status_code resp < 500)%Z ->
  status_code resp <> 429%Z ->
  (status_code resp = 413%Z -> Transport.has_retry_after resp = false) ->
  Transport.session_request
    "GET" (server (next_request (request_headers access_token) (initial_state page_size)))
  = (1%nat, Transport.Delivered resp)
  /\ _fetch_mdvm_vulnerabilities (S fuel) (through_session server)
                                 access_token page_size max_pages
     = Some (Raise (RuntimeError (http_error_message resp))).
Proof.
  intros Hnonneg Hfirst Hrange H429 H413.
  set (request := next_request (request_headers access_token) (initial_state page_size))
    in *.
  assert (Hretry : forall remaining,
             Transport.is_retry Transport.retry_strategy remaining "GET"
                                (status_code resp) (Transport.has_retry_after resp)
             = false).
  { intros remaining. unfold Transport.is_retry.
    assert (Hforced : Transport.mem_Z (status_code resp)
                        (Transport.status_forcelist Transport.retry_strategy) = false).
    { destruct (Transport.mem_Z _ _) eqn:E; [|reflexivity].
      apply TransportFacts.forced_statuses in E. simpl in E.
      destruct E as [E | [E | [E | [E | [E | []]]]]]; lia. }
    assert (Hcodes : Transport.has_retry_after resp
                     && Transport.mem_Z (status_code resp)
                                        Transport.RETRY_AFTER_STATUS_CODES = false).
    { destruct (Transport.has_retry_after resp) eqn:Hra; [|reflexivity].
      unfold Transport.mem_Z, Transport.RETRY_AFTER_STATUS_CODES. simpl.
      rewrite !orb_false_iff.
      repeat split; try reflexivity; apply Z.eqb_neq; lia. }
    rewrite Hforced, <- !andb_assoc, Hcodes, andb_false_r. apply andb_false_r. }
  assert (Hsend : Transport.session_request "GET" (server request)
                  = (1%nat, Transport.Delivered resp)).
  { unfold Transport.session_request. simpl. rewrite Hfirst, Hretry. reflexivity. }
  split; [exact Hsend|].
  unfold _fetch_mdvm_vulnerabilities, fetch_run.
  assert (Htest : loop_test max_pages (initial_state page_size) = true).
  { unfold loop_test. simpl. apply orb_true_iff.
    destruct (Z.eq_dec max_pages 0%Z) as [-> | Hne];
      [left; reflexivity | right; apply Z.ltb_lt; lia]. }
  rewrite (fetch_loop_error (through_session server) (request_headers access_token)
             max_pages fuel _ (RuntimeError (http_error_message resp)) Htest);
    [reflexivity|].
  unfold fetch_page, through_session, Transport.session_call. fold request.
  rewrite Hsend. simpl.
  destruct (Z.leb_spec 400 (status_code resp)); [|lia].
  destruct (Z.ltb_spec (status_code resp) 600); [reflexivity | lia].
Qed.

Lemma client_error_is_not_retried_witness :
  _fetch_mdvm_vulnerabilities 1 (through_session (fun _ => Extra.always_404)) "tok" 10 5
  = Some (Raise (RuntimeError
                   "API request failed: API request failed with status 404")).
Proof.
  destruct (client_error_is_not_retried (fun _ => Extra.always_404) "tok" 10 5 0
              (Transport.answer 404 []))
    as [_ Hfetch]; [lia | reflexivity | simpl; lia | discriminate | discriminate|].
  exact Hfetch.
Defined.

End FetcherErrors.

(** ** More on the session's retries *)

Module TransportMore.
Import Transport TransportFacts.

(** Forced statuses use up one retry each. *)
Lemma urlopen_skip r method server :
  is_method_retryable r method = true ->
  forall j remaining sent,
    (j <= remaining)%nat ->
    (forall n, (sent <= n < sent + j)%nat ->
               mem_Z (status_code (server n)) (status_forcelist r) = true) ->
    urlopen r remaining method server sent
    = urlopen r (remaining - j) method server (sent + j).
Proof.
  intros Hm. induction j as [|j IH]; intros remaining sent Hj Hforced.
  - rewrite Nat.sub_0_r, Nat.add_0_r. reflexivity.
  - destruct remaining as [|remaining]; [lia|].
    simpl. unfold is_retry at 1. rewrite Hm, (Hforced sent) by lia. simpl.
    rewrite (IH remaining (S sent)); [f_equal; lia | lia |].
    intros n Hn. apply Hforced. lia.
Qed.

Lemma urlopen_deliver r remaining method server sent :
  is_retry r remaining method (status_code (server sent)) (has_retry_after (server sent))
  = false ->
  urlopen r remaining method server sent = (S sent, Delivered (server sent)).
Proof. intros H. destruct remaining; simpl; rewrite H; reflexivity. Qed.

Lemma success_not_retried remaining method resp :
  (200 <= status_code resp < 300)%Z ->
  is_retry retry_strategy remaining method (status_code resp) (has_retry_after resp)
  = false.
Proof.
  intros Hok. unfold is_retry.
  assert (Hforced : mem_Z (status_code resp) (status_forcelist retry_strategy) = false).
  { destruct (mem_Z _ _) eqn:E; [|reflexivity].
    apply forced_statuses in E. simpl in E.
    destruct E as [E | [E | [E | [E | [E | []]]]]]; lia. }
  assert (Hcodes : mem_Z (status_code resp) RETRY_AFTER_STATUS_CODES = false).
  { unfold mem_Z, RETRY_AFTER_STATUS_CODES. simpl. rewrite !orb_false_iff.
    repeat split; try reflexivity; apply Z.eqb_neq; lia. }
  rewrite Hforced, Hcodes, !andb_false_r. reflexivity.
Qed.

(** X7.  The session rides out transient failures of GET and POST alike:
    when the endpoint answers 503 to the first j transmissions, j at most 3,
    and then succeeds, the caller gets the successful response after j + 1
    transmissions and never sees the failures; from four failures on the
    session gives up after the fourth transmission. *)
Theorem transient_failures_are_ridden_out (method : string) (good : response) (j : nat) :
  str_upper method = "GET" \/ str_upper method = "POST" ->
  (200 <= status_code good < 300)%Z ->
  ((j <= 3)%nat ->
   session_request method (Extra.flaky j good) = (S j, Delivered good)
   /\ session_call method (Extra.flaky j good) = Success (body good))
  /\ ((4 <= j)%nat ->
      session_request method (Extra.flaky j good) = (4%nat, MaxRetryError)
      /\ session_call method (Extra.flaky j good) = RequestFailed).
Proof.
  intros Hmethod Hok.
  apply retryable_methods in Hmethod.
  split.
  - intros Hj.
    assert (Hsend : session_request method (Extra.flaky j good) = (S j, Delivered good)).
    { unfold session_request.
      rewrite (urlopen_skip retry_strategy method (Extra.flaky j good) Hmethod j);
        [| simpl; lia |].
      - assert (Hat : Extra.flaky j good (0 + j)%nat = good).
        { unfold Extra.flaky. destruct (Nat.ltb_spec (0 + j) j); [lia | reflexivity]. }
        rewrite urlopen_deliver; rewrite Hat; [reflexivity|].
        apply success_not_retried, Hok.
      - intros n Hn. unfold Extra.flaky.
        destruct (Nat.ltb_spec n j); [reflexivity | lia]. }
    split; [exact Hsend|].
    unfold session_call. rewrite Hsend. simpl.
    destruct (Z.leb_spec 400 (status_code good)); [lia | reflexivity].
  - intros Hj.
    assert (Hsend : session_request method (Extra.flaky j good) = (4%nat, MaxRetryError)).
    { unfold session_request.
      rewrite (urlopen_skip retry_strategy method (Extra.flaky j good) Hmethod 3);
        [| simpl; lia |].
      - simpl. unfold is_retry. rewrite Hmethod.
        unfold Extra.flaky. destruct (Nat.ltb_spec 3 j); [reflexivity | lia].
      - intros n Hn. unfold Extra.flaky.
        destruct (Nat.ltb_spec n j); [reflexivity | lia]. }
    split; [exact Hsend|].
    unfold session_call. rewrite Hsend. reflexivity.
Qed.

Lemma transient_failures_are_ridden_out_witness :
  session_request "post" (Extra.flaky 2 (answer 200 [])) = (3%nat, Delivered (answer 200 []))
  /\ session_call "GET" (Extra.flaky 4 (answer 200 [])) = RequestFailed.
Proof.
  split.
  - destruct (transient_failures_are_ridden_out "post" (answer 200 []) 2)
      as [Hfew _]; [right; reflexivity | simpl; lia|].
    destruct Hfew as [Hsend _]; [lia | exact Hsend].
  - destruct (transient_failures_are_ridden_out "GET" (answer 200 []) 4)
      as [_ Hmany]; [left; reflexivity | simpl; lia|].
    destruct Hmany as [_ Hcall]; [lia | exact Hcall].
Defined.

End TransportMore.

(** ** More on the token cache *)

Module TokenCacheMore.
Import TokenCache TokenCacheFacts.

Lemma Qgt_bool_false (a b : Q) : Qgt_bool a b = false <-> (a <= b)%Q.
Proof.
  unfold Qgt_bool. rewrite negb_false_iff. apply Qle_bool_iff.
Qed.

Section Call.
Variable e : env.
Variables tenant_id client_id client_secret resource_app_id_uri : string.

Abbreviation key := (cache_key_of tenant_id client_id resource_app_id_uri).
Abbreviation request :=
  (Extra.token_request_for tenant_id client_id client_secret resource_app_id_uri).
Abbreviation get_token :=
  (_get_cached_token e tenant_id client_id client_secret resource_app_id_uri).

(** What a call does when it has to ask the provider, from a state in which
    the clock has perhaps been read once more. *)
Lemma fetch_aad_token_spec st :
  _fetch_aad_token e tenant_id client_id client_secret resource_app_id_uri st
  = (match identity_provider e (token_requests st) request with
     | HttpError _ =>
         Raise (RuntimeError "Failed to retrieve Entra ID token due to HTTP error.")
     | RequestFailed =>
         Raise (RuntimeError "Failed to retrieve Entra ID token due to connection error.")
     | Success (JObj payload) =>
         match dict_get payload "access_token" with
         | Some access_token => Ok access_token
         | None => Raise (RuntimeError "Failed to parse Entra ID token response.")
         end
     | Success _ => Raise TypeError
     end,
     {| token_cache := token_cache st;
        clock_reads := clock_reads st;
        token_requests := token_requests st ++ [request] |}).
Proof.
  unfold _fetch_aad_token. fold request.
  destruct (identity_provider e (token_requests st) request) as [?| |payload];
    try reflexivity.
  destruct payload as [| | | | | |fields]; try reflexivity.
  destruct (dict_get fields "access_token"); reflexivity.
Qed.

(** The call unfolded: a fresh entry is served, anything else asks the
    provider. *)
Lemma get_cached_token_cases st :
  (exists entry,
      token_cache st !! key = Some entry
      /\ (clock e (clock_reads st) + 300 < expires_at entry)%Q
      /\ get_token st = (Ok (token entry), Extra.tick st))
  \/ (exists st0,
        (token_cache st !! key = None /\ st0 = st
         \/ exists entry,
             token_cache st !! key = Some entry
             /\ (expires_at entry <= clock e (clock_reads st) + 300)%Q
             /\ st0 = Extra.tick st)
        /\ get_token st
           = match _fetch_aad_token e tenant_id client_id client_secret
                                    resource_app_id_uri st0 with
             | (Raise err, st1) => (Raise err, st1)
             | (Ok tok, st1) =>
                 (Ok tok,
                  {| token_cache :=
                       <[key := {| token := tok;
                                   expires_at := clock e (clock_reads st1) + 3600 |}]>
                         (token_cache st1);
                     clock_reads := S (clock_reads st1);
                     token_requests := token_requests st1 |})
             end).
Proof.
  unfold _get_cached_token.
  destruct (token_cache st !! key) as [entry|] eqn:Hget.
  - simpl. destruct (Qgt_bool (expires_at entry) (clock e (clock_reads st) + 300))
      eqn:Hfresh.
    + left. exists entry. apply Qgt_bool_true in Hfresh. auto.
    + right. exists (Extra.tick st). apply Qgt_bool_false in Hfresh.
      split; [right; exists entry; auto|].
      fold (Extra.tick st).
      destruct (_fetch_aad_token e tenant_id client_id client_secret
                                 resource_app_id_uri (Extra.tick st)) as [[tok|err] st1];
        reflexivity.
  - right. exists st. split; [left; auto|].
    destruct (_fetch_aad_token e tenant_id client_id client_secret
                               resource_app_id_uri st) as [[tok|err] st1];
      reflexivity.
Qed.
End Call.

(** X8.  A missing or stale entry is replaced by one issuance.  When the
    cache has no entry for the credentials, or one whose expiry is not above
    the clock reading plus 300 seconds, and the provider issues a token, the
    call posts exactly one request, returns the new token and stores it under
    the key with expiry one hour after the clock reading taken at storage,
    in place of the old entry. *)
Theorem stale_entry_is_refreshed
        (e : env) (tenant_id client_id client_secret resource_app_id_uri : string)
        (st : state) (payload : list (string * json)) (tok : json) :
  identity_provider e (token_requests st)
    (Extra.token_request_for tenant_id client_id client_secret resource_app_id_uri)
  = Success (JObj payload) ->
  dict_get payload "access_token" = Some tok ->
  (token_cache st !! cache_key_of tenant_id client_id resource_app_id_uri = None ->
   _get_cached_token e tenant_id client_id client_secret resource_app_id_uri st
   = (Ok tok,
      {| token_cache :=
           <[cache_key_of tenant_id client_id resource_app_id_uri :=
               {| token := tok; expires_at := clock e (clock_reads st) + 3600 |}]>
             (token_cache st);
         clock_reads := S (clock_reads st);
         token_requests :=
           token_requests st
           ++ [Extra.token_request_for tenant_id client_id client_secret
                                       resource_app_id_uri] |}))
  /\ (forall old,
        token_cache st !! cache_key_of tenant_id client_id resource_app_id_uri = Some old ->
        (expires_at old <= clock e (clock_reads st) + 300)%Q ->
        _get_cached_token e tenant_id client_id client_secret resource_app_id_uri st
        = (Ok tok,
           {| token_cache :=
                <[cache_key_of tenant_id client_id resource_app_id_uri :=
                    {| token := tok;
                       expires_at := clock e (S (clock_reads st)) + 3600 |}]>
                  (token_cache st);
              clock_reads := S (S (clock_reads st));
              token_requests :=
                token_requests st
                ++ [Extra.token_request_for tenant_id client_id client_secret
                                            resource_app_id_uri] |})).
Proof.
  intros Hissue Htok.
  destruct (get_cached_token_cases e tenant_id client_id client_secret
              resource_app_id_uri st)
    as [[entry [Hget [Hfresh _]]] | [st0 [Hst0 Hcall]]].
  - split.
    + intros Hnone. rewrite Hnone in Hget. discriminate Hget.
    + intros old Hold Hstale. rewrite Hold in Hget. injection Hget as ->.
      exfalso. exact (Qlt_not_le _ _ Hfresh Hstale).
  - rewrite fetch_aad_token_spec in Hcall.
    assert (Hreqs : token_requests st0 = token_requests st).
    { destruct Hst0 as [[_ ->] | [entry [_ [_ ->]]]]; reflexivity. }
    rewrite Hreqs, Hissue, Htok in Hcall. simpl in Hcall.
    split.
    + intros Hnone.
      destruct Hst0 as [[_ ->] | [entry [Hget _]]];
        [exact Hcall | rewrite Hnone in Hget; discriminate Hget].
    + intros old Hold Hstale.
      destruct Hst0 as [[Hnone _] | [entry [_ [_ ->]]]];
        [rewrite Hold in Hnone; discriminate Hnone | exact Hcall].
Qed.

Lemma stale_entry_is_refreshed_witness :
  exists st',
    _get_cached_token sample_env "t" "c" "s" "r" (Extra.cached_state "old" 1200)
    = (Ok (JStr "tok-1"), st')
    /\ length (token_requests st') = 1%nat.
Proof.
  destruct (stale_entry_is_refreshed sample_env "t" "c" "s" "r"
              (Extra.cached_state "old" 1200)
              [("access_token", JStr "tok-1")] (JStr "tok-1") eq_refl eq_refl)
    as [_ Hstale].
  eexists. split.
  - apply (Hstale {| token := JStr "old"; expires_at := 1200 |}); [reflexivity|].
    vm_compute. discriminate.
  - reflexivity.
Defined.

(** X9.  A call that fails leaves the cache as it was: the error of the one
    request it posted is raised (a RuntimeError, or a TypeError for a
    payload that is not an object), nothing is stored, and an entry that was
    there, stale as it is, stays. *)
Theorem failed_issuance_keeps_the_cache
        (e : env) (tenant_id client_id client_secret resource_app_id_uri : string)
        (st st' : state) (err : exn) :
  _get_cached_token e tenant_id client_id client_secret resource_app_id_uri st
  = (Raise err, st') ->
  token_cache st' = token_cache st
  /\ token_requests st'
     = token_requests st
       ++ [Extra.token_request_for tenant_id client_id client_secret resource_app_id_uri]
  /\ (err = TypeError \/ exists msg, err = RuntimeError msg).
Proof.
  intros Hcall.
  destruct (get_cached_token_cases e tenant_id client_id client_secret
              resource_app_id_uri st)
    as [[entry [_ [_ Hhit]]] | [st0 [Hst0 Hmiss]]].
  - rewrite Hhit in Hcall. discriminate Hcall.
  - rewrite Hcall, fetch_aad_token_spec in Hmiss.
    assert (Hsame : token_requests st0 = token_requests st
                    /\ token_cache st0 = token_cache st).
    { destruct Hst0 as [[_ ->] | [entry [_ [_ ->]]]]; split; reflexivity. }
    destruct Hsame as [Hreqs Hcache]. rewrite Hreqs, Hcache in Hmiss.
    destruct (identity_provider e (token_requests st) _) as [?| |payload].
    + injection Hmiss as -> ->. simpl. eauto.
    + injection Hmiss as -> ->. simpl. eauto.
    + destruct payload as [| | | | | |fields];
        try (injection Hmiss as -> ->; simpl; eauto).
      destruct (dict_get fields "access_token");
        [discriminate Hmiss | injection Hmiss as -> ->; simpl; eauto].
Qed.

Lemma failed_issuance_keeps_the_cache_witness :
  exists st',
    _get_cached_token Extra.refusing_env "t" "c" "s" "r" (Extra.cached_state "old" 1200)
    = (Raise (RuntimeError "Failed to retrieve Entra ID token due to HTTP error."), st')
    /\ token_cache st' = token_cache (Extra.cached_state "old" 1200).
Proof.
  eexists. split; [reflexivity|].
  destruct (failed_issuance_keeps_the_cache Extra.refusing_env "t" "c" "s" "r"
              (Extra.cached_state "old" 1200) _ _ eq_refl) as [Hcache _].
  exact Hcache.
Defined.

(** X10.  A call touches one key only and posts at most one request: the
    entries of all other keys are as before, an entry of its own key is never
    removed, the request log grows by at most one and the clock is read at
    most twice. *)
Theorem call_touches_only_its_key
        (e : env) (tenant_id client_id client_secret resource_app_id_uri : string)
        (st st' : state) (res : result json) :
  _get_cached_token e tenant_id client_id client_secret resource_app_id_uri st
  = (res, st') ->
  (forall other,
      other <> cache_key_of tenant_id client_id resource_app_id_uri ->
      token_cache st' !! other = token_cache st !! other)
  /\ (is_Some (token_cache st !! cache_key_of tenant_id client_id resource_app_id_uri) ->
      is_Some (token_cache st' !! cache_key_of tenant_id client_id resource_app_id_uri))
  /\ (length (token_requests st) <= length (token_requests st')
      <= S (length (token_requests st)))%nat
  /\ (clock_reads st <= clock_reads st' <= clock_reads st + 2)%nat.
Proof.
  intros Hcall.
  destruct (get_cached_token_cases e tenant_id client_id client_secret
              resource_app_id_uri st)
    as [[entry [Hget [_ Hhit]]] | [st0 [Hst0 Hmiss]]].
  - rewrite Hhit in Hcall. injection Hcall as _ <-. simpl.
    repeat split; auto; lia.
  - rewrite Hcall, fetch_aad_token_spec in Hmiss.
    assert (Hsame : token_requests st0 = token_requests st
                    /\ token_cache st0 = token_cache st
                    /\ (clock_reads st <= clock_reads st0 <= S (clock_reads st))%nat).
    { destruct Hst0 as [[_ ->] | [entry [_ [_ ->]]]]; simpl; repeat split; lia. }
    destruct Hsame as [Hreqs [Hcache Hreads]].
    destruct (match identity_provider e (token_requests st0) _ with
              | HttpError _ => _ | RequestFailed => _ | Success _ => _ end)
      as [tok|err]; injection Hmiss as -> ->; simpl;
      rewrite ?Hreqs, ?Hcache, ?length_app; simpl.
    + repeat split; try lia.
      * intros other Hne. apply lookup_insert_ne. congruence.
      * intros _. rewrite lookup_insert_eq. eauto.
    + repeat split; auto; lia.
Qed.

Lemma call_touches_only_its_key_witness :
  exists st',
    _get_cached_token sample_env "t2" "c" "s" "r" (Extra.cached_state "old" 9000)
    = (Ok (JStr "tok-1"), st')
    /\ token_cache st' !! cache_key_of "t" "c" "r"
       = Some {| token := JStr "old"; expires_at := 9000 |}.
Proof.
  eexists. split; [reflexivity|].
  destruct (call_touches_only_its_key sample_env "t2" "c" "s" "r"
              (Extra.cached_state "old" 9000) _ _ eq_refl) as [Hother _].
  rewrite (Hother (cache_key_of "t" "c" "r")); [reflexivity | discriminate].
Defined.

(** X11.  The client secret is no part of the cache key: once a call has
    returned a token, a call with the same tenant, client and resource but
    any other secret, made while the entry is fresh, is served that token
    without a request to the provider. *)
Theorem secret_is_not_checked_on_a_hit
        (e : env) (tenant_id client_id secret1 secret2 resource_app_id_uri : string)
        (st st1 : state) (tok : json) (entry : token_entry) :
  _get_cached_token e tenant_id client_id secret1 resource_app_id_uri st = (Ok tok, st1) ->
  token_cache st1 !! cache_key_of tenant_id client_id resource_app_id_uri = Some entry ->
  (clock e (clock_reads st1) + 300 < expires_at entry)%Q ->
  _get_cached_token e tenant_id client_id secret2 resource_app_id_uri st1
  = (Ok tok, Extra.tick st1).
Proof.
  intros Hfirst Hentry Hfresh.
  rewrite (get_cached_token_hit e tenant_id client_id secret2 resource_app_id_uri
             st1 entry Hentry Hfresh).
  destruct (get_cached_token_inv e _ _ _ _ st tok st1 Hfirst)
    as [[old [Hget [_ [Htok [Hcache _]]]]] | [req [reads [_ [_ Hcache]]]]].
  - rewrite Hcache, Hget in Hentry. injection Hentry as <-. subst tok. reflexivity.
  - rewrite Hcache, lookup_insert_eq in Hentry. injection Hentry as <-. reflexivity.
Qed.

Lemma secret_is_not_checked_on_a_hit_witness :
  exists st1,
    _get_cached_token sample_env "t" "c" "right" "r" empty_state = (Ok (JStr "tok-1"), st1)
    /\ _get_cached_token sample_env "t" "c" "wrong" "r" st1
       = (Ok (JStr "tok-1"), Extra.tick st1).
Proof.
  eexists. split; [reflexivity|].
  eapply (secret_is_not_checked_on_a_hit sample_env "t" "c" "right" "wrong" "r"
            empty_state _ (JStr "tok-1")
            {| token := JStr "tok-1"; expires_at := clock sample_env 0 + 3600 |}).
  - reflexivity.
  - reflexivity.
  - vm_compute. reflexivity.
Defined.

End TokenCacheMore.

(** ** The cache key *)

Module CacheKeyFacts.
Import TokenCache.

#[local] Arguments String.append !_ _ /.

Lemma append_assoc (a b c : string) : (a +:+ b) +:+ c = a +:+ (b +:+ c).
Proof. induction a as [|ch a IH]; simpl; [reflexivity | rewrite IH; reflexivity]. Qed.

(** A colon-free text is recovered from what follows it up to the colon. *)
Lemma colon_split (a b x y : string) :
  Extra.colon_free a = true -> Extra.colon_free b = true ->
  a +:+ ":" +:+ x = b +:+ ":" +:+ y ->
  a = b /\ x = y.
Proof.
  revert b. induction a as [|ch a IH]; intros [|ch' b] Ha Hb Heq; simpl in *.
  - injection Heq as ->. auto.
  - injection Heq as <- _. unfold Extra.colon_free in Hb. simpl in Hb. discriminate Hb.
  - injection Heq as -> _. unfold Extra.colon_free in Ha. simpl in Ha. discriminate Ha.
  - injection Heq as -> Heq.
    unfold Extra.colon_free in Ha, Hb. simpl in Ha, Hb.
    apply andb_prop in Ha as [_ Ha]. apply andb_prop in Hb as [_ Hb].
    destruct (IH b Ha Hb Heq) as [-> ->]. auto.
Qed.

(** X12.  The cache key tells credential sets apart as long as tenant and
    client ids hold no colon: equal keys then mean equal tenant, client and
    resource.  With a colon in an id it does not: moving a colon-separated
    part from the end of the tenant id to the front of the client id gives
    the same key, so the two credential sets share one cache entry. *)
Theorem cache_key_identifies_colon_free_ids :
  (forall t1 c1 r1 t2 c2 r2,
      Extra.colon_free t1 = true -> Extra.colon_free c1 = true ->
      Extra.colon_free t2 = true -> Extra.colon_free c2 = true ->
      cache_key_of t1 c1 r1 = cache_key_of t2 c2 r2 ->
      t1 = t2 /\ c1 = c2 /\ r1 = r2)
  /\ (forall t x c r,
        cache_key_of (t +:+ ":" +:+ x) c r = cache_key_of t (x +:+ ":" +:+ c) r).
Proof.
  split.
  - intros t1 c1 r1 t2 c2 r2 Ht1 Hc1 Ht2 Hc2 Heq. unfold cache_key_of in Heq.
    destruct (colon_split t1 t2 _ _ Ht1 Ht2 Heq) as [-> Hrest].
    destruct (colon_split c1 c2 _ _ Hc1 Hc2 Hrest) as [-> ->]. auto.
  - intros t x c r. unfold cache_key_of.
    rewrite !append_assoc. reflexivity.
Qed.

Lemma cache_key_identifies_colon_free_ids_witness :
  ("contoso" = "contoso" /\ "app-1" = "app-1"
   /\ "https://api.securitycenter.microsoft.com" = "https://api.securitycenter.microsoft.com")
  /\ cache_key_of "a:b" "c" "r" = cache_key_of "a" "b:c" "r".
Proof.
  destruct cache_key_identifies_colon_free_ids as [Hinj Hshift].
  split.
  - apply (Hinj "contoso" "app-1" "https://api.securitycenter.microsoft.com"
                "contoso" "app-1" "https://api.securitycenter.microsoft.com");
      reflexivity.
  - exact (Hshift "a" "b" "c" "r").
Defined.

End CacheKeyFacts.

(** ** More on the reorganizer *)

Module ReorganizerMore.
Import PyFacts PyDictFacts Reorganizer ReorganizerFacts.

Section Dict.
Context {V : Type}.
Implicit Types (d : list (json * V)) (k : json) (v : V).

Lemma length_set d k v :
  length (PyDict.set d k v)
  = (length d + match PyDict.get d k with Some _ => 0 | None => 1 end)%nat.
Proof.
  induction d as [|[k0 v0] d IH]; simpl; [reflexivity|].
  destruct (key_eqb k0 k); simpl; [lia | rewrite IH; lia].
Qed.

(** Assignment under a size measure of the values. *)
Lemma sum_set (m : V -> nat) d k v :
  (list_sum (map (fun kv => m (snd kv)) (PyDict.set d k v))
   + match PyDict.get d k with Some old => m old | None => 0 end
   = list_sum (map (fun kv => m (snd kv)) d) + m v)%nat.
Proof.
  induction d as [|[k0 v0] d IH]; simpl; [lia|].
  destruct (key_eqb k0 k); simpl; lia.
Qed.

(** Assignment keeps the keys and their order, and puts a new key last. *)
Lemma keys_set d k v : map fst (PyDict.set d k v) = Extra.add_key (map fst d) k.
Proof.
  unfold Extra.add_key. induction d as [|[k0 v0] d IH]; simpl; [reflexivity|].
  destruct (key_eqb k0 k); simpl; [reflexivity|].
  rewrite IH. destruct (existsb (fun k' => key_eqb k' k) (map fst d)); reflexivity.
Qed.
End Dict.

Section WithRepr.
Variable py_repr : json -> string.

Abbreviation record_path := (record_path py_repr).
Abbreviation reorganize_step := (reorganize_step py_repr).
Abbreviation reorganize_from := (reorganize_from py_repr).
Abbreviation filed_under := (filed_under py_repr).
Abbreviation last_step path :=
  (fun (found : option json) vuln => if filed_under path vuln then Some vuln else found).

Lemma reorganize_step_failure h vuln :
  well_typed_record py_repr vuln = false ->
  reorganize_step h vuln
  = Raise (match vuln with JObj _ => TypeError | _ => AttributeError end).
Proof.
  unfold well_typed_record, Reorganizer.reorganize_step.
  destruct vuln as [| | | | |?|fields]; try reflexivity.
  destruct (Reorganizer.record_path py_repr fields) as [[p d] k].
  destruct (hashable p); simpl; [|reflexivity].
  destruct (hashable d); simpl; [|reflexivity].
  destruct (hashable k); simpl; [discriminate | reflexivity].
Qed.

Lemma reorganize_from_first_failure vulnerabilities :
  forall h,
    match Extra.first_failure py_repr vulnerabilities with
    | None => exists h', reorganize_from h vulnerabilities = Ok h'
    | Some err => reorganize_from h vulnerabilities = Raise err
    end.
Proof.
  induction vulnerabilities as [|vuln rest IH]; intros h; simpl.
  - exists h. reflexivity.
  - destruct (well_typed_record py_repr vuln) eqn:Hwt.
    + destruct (reorganize_step_total py_repr h vuln Hwt) as [h1 Hstep].
      rewrite Hstep. simpl.
      destruct vuln as [| | | | |?|fields]; try discriminate Hwt.
      apply IH.
    + rewrite (reorganize_step_failure h vuln Hwt).
      destruct vuln; reflexivity.
Qed.

Lemma fold_last_none_iff path records :
  fold_left (last_step path) records None = None <->
  existsb (filed_under path) records = false.
Proof.
  split.
  - intros Hnone. destruct (existsb (filed_under path) records) eqn:Hex; [|reflexivity].
    apply existsb_exists in Hex as [v [Hin Hv]].
    apply in_split in Hin as [l1 [l2 ->]].
    rewrite fold_left_app in Hnone. cbn [fold_left] in Hnone. rewrite Hv in Hnone.
    exfalso. clear - Hnone. revert Hnone. generalize v.
    induction l2 as [|w l2 IH]; intros v0; simpl; [discriminate|].
    destruct (filed_under path w); apply IH.
  - intros Hex. apply (fold_last_none py_repr path records None Hex).
Qed.

(** Filing a record adds one entry when its path is new and none when the
    path is taken. *)
Lemma reorganize_step_count h vuln h' :
  wf_hierarchy h ->
  reorganize_step h vuln = Ok h' ->
  Extra.entry_count h'
  = (Extra.entry_count h
     + match vuln with
       | JObj fields =>
           match entries_at h (record_path fields) with [] => 1 | _ :: _ => 0 end
       | _ => 0
       end)%nat.
Proof.
  intros W. unfold Reorganizer.reorganize_step.
  destruct vuln as [| | | | |?|fields]; try discriminate.
  destruct (Reorganizer.record_path py_repr fields) as [[p d] k] eqn:Hpath.
  destruct (hashable p) eqn:Hp; cbn [negb]; [|discriminate].
  destruct (hashable d) eqn:Hd; cbn [negb]; [|discriminate].
  destruct (hashable k) eqn:Hk; cbn [negb]; [|discriminate].
  intros [= <-].
  pose proof (wf_devices_of h p W) as Wd.
  pose proof (unique_cves_of (devices_of h p) d Wd) as Wc.
  rewrite (entries_at_cves h p d k W), (select_get _ k Wc).
  set (devices := devices_of h p) in *.
  set (cves := cves_of devices d) in *.
  pose proof (length_set cves k (JObj fields)) as Hc.
  pose proof (sum_set (fun c : list (json * json) => length c) devices d
                      (PyDict.set cves k (JObj fields))) as Hdv.
  pose proof (sum_set Extra.device_count h p
                      (PyDict.set devices d (PyDict.set cves k (JObj fields)))) as Hh.
  assert (Hold_c : match PyDict.get devices d with
                   | Some old => length old | None => 0%nat end = length cves).
  { unfold cves, cves_of. destruct (PyDict.get devices d); reflexivity. }
  assert (Hold_d : match PyDict.get h p with
                   | Some old => Extra.device_count old | None => 0%nat end
                   = Extra.device_count devices).
  { unfold devices, devices_of. destruct (PyDict.get h p); reflexivity. }
  cbv beta in Hdv, Hh. rewrite Hold_c in Hdv. rewrite Hold_d in Hh.
  fold (Extra.device_count (PyDict.set devices d (PyDict.set cves k (JObj fields)))) in Hdv.
  fold (Extra.device_count devices) in Hdv.
  fold (Extra.entry_count (PyDict.set h p
          (PyDict.set devices d (PyDict.set cves k (JObj fields))))) in Hh.
  fold (Extra.entry_count h) in Hh.
  destruct (PyDict.get cves k); simpl; lia.
Qed.

Lemma reorganize_from_count vulnerabilities :
  forall h h' seen,
    wf_hierarchy h ->
    (forall path, entries_at h path = option_list (last_filed py_repr seen path)) ->
    reorganize_from h vulnerabilities = Ok h' ->
    Extra.entry_count h'
    = (Extra.entry_count h + Extra.new_paths py_repr seen vulnerabilities)%nat.
Proof.
  induction vulnerabilities as [|vuln rest IH]; intros h h' seen W Hseen Hrun.
  - injection Hrun as <-. simpl. lia.
  - simpl in Hrun.
    destruct (reorganize_step h vuln) as [h1|err] eqn:Hstep; [|discriminate Hrun].
    simpl in Hrun.
    destruct (reorganize_step_spec py_repr h vuln h1 W Hstep) as [W1 H1].
    rewrite (IH h1 h' (seen ++ [vuln]) W1); [|
      intros path; rewrite H1, Hseen; unfold last_filed;
      rewrite fold_left_app; cbn [fold_left];
      destruct (filed_under path vuln); reflexivity | exact Hrun].
    rewrite (reorganize_step_count h vuln h1 W Hstep).
    cbn [Extra.new_paths].
    assert (Hnew : match vuln with
                   | JObj fields =>
                       match entries_at h (record_path fields) with
                       | [] => 1 | _ :: _ => 0 end
                   | _ => 0
                   end
                   = if existsb (Extra.same_path py_repr vuln) seen then 0 else 1).
    { unfold Reorganizer.reorganize_step in Hstep.
      destruct vuln as [| | | | |?|fields]; try discriminate Hstep.
      rewrite Hseen. unfold last_filed.
      change (Extra.same_path py_repr (JObj fields))
        with (filed_under (record_path fields)).
      destruct (existsb (filed_under (record_path fields)) seen) eqn:Hex.
      - destruct (fold_left _ seen None) eqn:Hf; [reflexivity|].
        apply fold_last_none_iff in Hf. congruence.
      - apply fold_last_none_iff in Hex. rewrite Hex. reflexivity. }
    rewrite Hnew. lia.
Qed.

Lemma new_paths_le seen vulnerabilities :
  (Extra.new_paths py_repr seen vulnerabilities <= length vulnerabilities)%nat.
Proof.
  revert seen. induction vulnerabilities as [|vuln rest IH]; intros seen; simpl; [lia|].
  specialize (IH (seen ++ [vuln])).
  destruct (existsb (Extra.same_path py_repr vuln) seen); lia.
Qed.

Lemma reorganize_from_keys vulnerabilities :
  forall h h',
    reorganize_from h vulnerabilities = Ok h' ->
    map fst h' = fold_left Extra.add_key (map Extra.platform_of vulnerabilities) (map fst h).
Proof.
  induction vulnerabilities as [|vuln rest IH]; intros h h' Hrun.
  - injection Hrun as <-. reflexivity.
  - simpl in Hrun.
    destruct (reorganize_step h vuln) as [h1|err] eqn:Hstep; [|discriminate Hrun].
    simpl in Hrun. simpl. rewrite (IH h1 h' Hrun). f_equal.
    unfold Reorganizer.reorganize_step in Hstep.
    destruct vuln as [| | | | |?|fields]; try discriminate Hstep.
    unfold Reorganizer.record_path in Hstep.
    destruct (hashable (dict_get_or fields "osPlatform" (JStr "Unknown")));
      simpl in Hstep; [|discriminate Hstep].
    destruct (hashable (dict_get_or fields "deviceName" (JStr "Unknown")));
      simpl in Hstep; [|discriminate Hstep].
    destruct (hashable (vulnerability_key py_repr fields));
      simpl in Hstep; [|discriminate Hstep].
    injection Hstep as <-. apply keys_set.
Qed.
End WithRepr.

(** X13.  The reorganizer fails at the first record it cannot file, and
    with nothing returned, whatever comes after: a record that is not a
    mapping raises AttributeError, a mapping with a list or an object as
    platform, device or key raises TypeError. *)
Theorem reorganize_fails_at_first_bad_record
        (py_repr : json -> string) (good : list json) (bad : json) (rest : list json) :
  forallb (well_typed_record py_repr) good = true ->
  well_typed_record py_repr bad = false ->
  _reorganize_vulnerabilities_by_hierarchy py_repr (good ++ bad :: rest)
  = Raise (match bad with JObj _ => TypeError | _ => AttributeError end).
Proof.
  intros Hgood Hbad.
  pose proof (reorganize_from_first_failure py_repr (good ++ bad :: rest) []) as H.
  assert (Hfirst : Extra.first_failure py_repr (good ++ bad :: rest)
                   = Some (match bad with JObj _ => TypeError | _ => AttributeError end)).
  { clear H. induction good as [|g good IH]; simpl.
    - rewrite Hbad. destruct bad; reflexivity.
    - simpl in Hgood. apply andb_prop in Hgood as [Hg Hgood]. rewrite Hg.
      destruct g as [| | | | |?|fields]; try discriminate Hg.
      apply IH, Hgood. }
  rewrite Hfirst in H. exact H.
Qed.

Lemma reorganize_fails_at_first_bad_record_witness :
  _reorganize_vulnerabilities_by_hierarchy
    no_repr [desk1_first; Extra.list_platform; desk1_second] = Raise TypeError
  /\ _reorganize_vulnerabilities_by_hierarchy
       no_repr [desk1_first; JStr "x"; Extra.list_platform] = Raise AttributeError.
Proof.
  split.
  - apply (reorganize_fails_at_first_bad_record
             no_repr [desk1_first] Extra.list_platform [desk1_second]); reflexivity.
  - apply (reorganize_fails_at_first_bad_record
             no_repr [desk1_first] (JStr "x") [Extra.list_platform]); reflexivity.
Defined.

(** X14.  A returned hierarchy holds one entry per distinct path: the number
    of its entries is the number of input records that are the first with
    their (platform, device, key) path, never more than the number of
    records, and smaller by one for each record that repeats a path. *)
Theorem one_entry_per_distinct_path
        (py_repr : json -> string) (vulnerabilities : list json) (h : hierarchy) :
  _reorganize_vulnerabilities_by_hierarchy py_repr vulnerabilities = Ok h ->
  Extra.entry_count h = Extra.new_paths py_repr [] vulnerabilities
  /\ (Extra.entry_count h <= length vulnerabilities)%nat.
Proof.
  intros Hrun.
  assert (Hcount : Extra.entry_count h = Extra.new_paths py_repr [] vulnerabilities).
  { rewrite (reorganize_from_count py_repr vulnerabilities [] h [] (wf_hierarchy_nil));
      [reflexivity | intros [[? ?] ?]; reflexivity | exact Hrun]. }
  split; [exact Hcount|]. rewrite Hcount. apply new_paths_le.
Qed.

Lemma one_entry_per_distinct_path_witness :
  exists h,
    _reorganize_vulnerabilities_by_hierarchy no_repr Extra.mixed_records = Ok h
    /\ Extra.entry_count h = 3%nat.
Proof.
  eexists. split; [reflexivity|].
  destruct (one_entry_per_distinct_path no_repr Extra.mixed_records _ eq_refl)
    as [Hcount _].
  rewrite Hcount. reflexivity.
Defined.

(** X15.  The platforms of a returned hierarchy are the platform values of
    the input records in the order of their first occurrence, each once; a
    record for a platform already there does not move it. *)
Theorem platforms_in_order_of_first_occurrence
        (py_repr : json -> string) (vulnerabilities : list json) (h : hierarchy) :
  _reorganize_vulnerabilities_by_hierarchy py_repr vulnerabilities = Ok h ->
  map fst h = Extra.first_keys (map Extra.platform_of vulnerabilities).
Proof.
  intros Hrun. apply (reorganize_from_keys py_repr vulnerabilities [] h Hrun).
Qed.

Lemma platforms_in_order_of_first_occurrence_witness :
  exists h,
    _reorganize_vulnerabilities_by_hierarchy no_repr Extra.mixed_records = Ok h
    /\ map fst h = [JStr "Linux"; JStr "Windows10"].
Proof.
  eexists. split; [reflexivity|].
  rewrite (platforms_in_order_of_first_occurrence no_repr Extra.mixed_records _ eq_refl).
  reflexivity.
Defined.

End ReorganizerMore.

(** ** More on the parameters *)

Module EntryPointMore.
Import EntryPoint EntryPointFacts.



(** [int] raises nothing but [ValueError], and so does the [try] block. *)
Lemma py_int_raises s err : py_int s = Raise err -> err = ValueError.
Proof.
  unfold py_int.
  destruct (match strip (list_ascii_of_string s) with [] => None | _ :: _ => _ end)
    as [n|]; [|intros [= <-]; reflexivity].
  destruct (int_max_str_digits <? _)%nat; [intros [= <-]; reflexivity | discriminate].
Qed.

Lemma request_parameters_raises params err :
  request_parameters params = Raise err -> err = ValueError.
Proof.
  unfold request_parameters.
  destruct (py_int (default (str_of_int DEFAULT_PAGE_SIZE) (params !! "pageSize")))
    as [n|e1] eqn:H1; simpl.
  - destruct (py_int (default (str_of_int DEFAULT_MAX_PAGES) (params !! "maxPages")))
      as [m|e2] eqn:H2; simpl; [discriminate|].
    intros [= <-]. eapply py_int_raises; exact H2.
  - intros [= <-]. eapply py_int_raises; exact H1.
Qed.



End EntryPointMore.

(** ** The handler *)

Module HandlerFacts.
Import EntryPoint Handler.

Lemma load_required_first_unset environ :
  forall vars env_config before var after,
    vars = before ++ var :: after ->
    forallb (fun v => negb (unset environ v)) before = true ->
    unset environ var = true ->
    load_required environ vars env_config = inl var.
Proof.
  intros vars env_config before. revert vars env_config.
  induction before as [|b before IH]; intros vars env_config var after -> Hset Hunset;
    simpl.
  - unfold unset in Hunset. destruct (environ !! var) as [value|]; [|reflexivity].
    rewrite Hunset. reflexivity.
  - simpl in Hset. apply andb_prop in Hset as [Hb Hset].
    unfold unset in Hb. destruct (environ !! b) as [value|]; [|discriminate Hb].
    apply negb_true_iff in Hb. rewrite Hb.
    eapply IH; [reflexivity | exact Hset | exact Hunset].
Qed.

Lemma load_required_configured environ tenant_id client_id client_secret :
  configured environ tenant_id client_id client_secret ->
  exists env_config,
    load_required environ required_env_vars ∅ = inr env_config
    /\ env_config !! "AAD_TENANT_ID" = Some tenant_id
    /\ env_config !! "AAD_CLIENT_ID" = Some client_id
    /\ env_config !! "AAD_CLIENT_SECRET" = Some client_secret.
Proof.
  intros [Ht [Htn [Hc [Hcn [Hs Hsn]]]]].
  apply String.eqb_neq in Htn, Hcn, Hsn.
  eexists. unfold required_env_vars. simpl.
  rewrite Ht, Htn, Hc, Hcn, Hs, Hsn.
  split; [reflexivity|]. repeat split.
Qed.

(** The handler, once parameters and configuration are in order. *)
Lemma handler_configured py_repr fuel params environ e api st p
      tenant_id client_id client_secret :
  request_parameters params = Ok p ->
  configured environ tenant_id client_id client_secret ->
  getMDVMData py_repr fuel params environ e api st
  = match TokenCache._get_cached_token e tenant_id client_id client_secret
                                       (resource_of environ) st with
    | (Raise err, st1) => Some (Ok (failure_response err), st1)
    | (Ok access_token, st1) =>
        match Fetcher._fetch_mdvm_vulnerabilities
                fuel api (py_format py_repr access_token) (page_size p) (max_pages p) with
        | None => None
        | Some (Raise err) => Some (Ok (failure_response err), st1)
        | Some (Ok vulnerabilities_data) =>
            match success_response py_repr (reorganize p) vulnerabilities_data with
            | Ok resp => Some (Ok resp, st1)
            | Raise err => Some (Ok (failure_response err), st1)
            end
        end
    end.
Proof.
  intros Hp Hcfg.
  destruct (load_required_configured environ _ _ _ Hcfg)
    as [env_config [Hload [Ht [Hc Hs]]]].
  unfold getMDVMData. rewrite Hp, Hload, Ht, Hc, Hs. simpl.
  fold (resource_of environ).
  destruct (TokenCache._get_cached_token e tenant_id client_id client_secret
                                         (resource_of environ) st) as [[tok|err] st1];
    reflexivity.
Qed.

Lemma failure_response_status err :
  In (http_status (failure_response err)) [500; 502]%Z.
Proof. destruct err; simpl; tauto. Qed.

Lemma success_response_status py_repr flag data resp :
  success_response py_repr flag data = Ok resp -> http_status resp = 200%Z.
Proof.
  unfold success_response.
  destruct (flag && _).
  - destruct (Reorganizer._reorganize_vulnerabilities_by_hierarchy py_repr _);
      simpl; [intros [= <-]; reflexivity | discriminate].
  - intros [= <-]. reflexivity.
Qed.



(** X18.  A required variable that is unset or empty stops the handler with
    500 and a message naming it: the first such one in the order tenant id,
    client id, client secret.  No token is asked for and the cache stays as
    it is. *)
Theorem missing_variable_is_reported
        (py_repr : json -> string) (fuel : nat) (params environ : gmap string string)
        (e : TokenCache.env) (api : Fetcher.source) (st : TokenCache.state)
        (p : parameters) (before : list string) (var : string) (after : list string) :
  request_parameters params = Ok p ->
  required_env_vars = before ++ var :: after ->
  forallb (fun v => negb (unset environ v)) before = true ->
  unset environ var = true ->
  getMDVMData py_repr fuel params environ e api st
  = Some (Ok {| http_status := 500;
                http_body :=
                  ErrorBody ("Server misconfiguration: " +:+ var +:+ " is missing") |},
          st).
Proof.
  intros Hp Hvars Hset Hunset.
  unfold getMDVMData. rewrite Hp.
  rewrite (load_required_first_unset environ required_env_vars ∅ before var after
             Hvars Hset Hunset).
  reflexivity.
Qed.

Lemma missing_variable_is_reported_witness :
  getMDVMData Reorganizer.no_repr 0 ∅
              {[ "AAD_TENANT_ID" := "contoso"; "AAD_CLIENT_ID" := "" ]}
              TokenCache.sample_env Fetcher.endless TokenCache.empty_state
  = Some (Ok {| http_status := 500;
                http_body :=
                  ErrorBody "Server misconfiguration: AAD_CLIENT_ID is missing" |},
          TokenCache.empty_state).
Proof.
  apply (missing_variable_is_reported
           Reorganizer.no_repr 0 ∅
           {[ "AAD_TENANT_ID" := "contoso"; "AAD_CLIENT_ID" := "" ]}
           TokenCache.sample_env Fetcher.endless TokenCache.empty_state
           {| page_size := 10; max_pages := 5; reorganize := true |}
           ["AAD_TENANT_ID"] "AAD_CLIENT_ID" ["AAD_CLIENT_SECRET"]);
    reflexivity.
Defined.

(** X19.  The handler lets no exception out: whenever it comes to an end it
    returns a response, and the status of the response is 200, 400, 500 or
    502.  With a positive page limit and fuel for as many turns it does
    come to an end. *)
Theorem handler_always_answers
        (py_repr : json -> string) (fuel : nat) (params environ : gmap string string)
        (e : TokenCache.env) (api : Fetcher.source) (st : TokenCache.state) :
  (forall r st',
      getMDVMData py_repr fuel params environ e api st = Some (r, st') ->
      exists resp, r = Ok resp /\ In (http_status resp) [200; 400; 500; 502]%Z)
  /\ (forall p,
        request_parameters params = Ok p ->
        (0 < max_pages p <= Z.of_nat fuel)%Z ->
        exists r st', getMDVMData py_repr fuel params environ e api st = Some (r, st')).
Proof.
  split.
  - intros r st'. unfold getMDVMData.
    destruct (request_parameters params) as [p|err] eqn:Hp.
    + destruct (load_required environ required_env_vars ∅) as [var|env_config].
      * intros [= <- <-]. eexists. split; [reflexivity | simpl; tauto].
      * destruct (TokenCache._get_cached_token _ _ _ _ _ st) as [[tok|err] st1].
        -- destruct (Fetcher._fetch_mdvm_vulnerabilities _ _ _ _ _) as [[data|err]|];
             [| |discriminate].
           ++ destruct (success_response py_repr (reorganize p) data) as [resp|err] eqn:Hs.
              ** intros [= <- <-]. exists resp. split; [reflexivity|].
                 rewrite (success_response_status _ _ _ _ Hs). simpl; tauto.
              ** intros [= <- <-]. eexists. split; [reflexivity|].
                 pose proof (failure_response_status err) as H. simpl in *. tauto.
           ++ intros [= <- <-]. eexists. split; [reflexivity|].
              pose proof (failure_response_status err) as H. simpl in *. tauto.
        -- intros [= <- <-]. eexists. split; [reflexivity|].
           pose proof (failure_response_status err) as H. simpl in *. tauto.
    + rewrite (EntryPointMore.request_parameters_raises params err Hp).
      intros [= <- <-]. eexists. split; [reflexivity | simpl; tauto].
  - intros p Hp [Hpos Hfuel]. unfold getMDVMData. rewrite Hp.
    destruct (load_required environ required_env_vars ∅) as [var|env_config];
      [eexists _, _; reflexivity|].
    destruct (TokenCache._get_cached_token _ _ _ _ _ st) as [[tok|err] st1];
      [|eexists _, _; reflexivity].
    destruct (FetcherMore.fetch_loop_bounded
                api (Fetcher.request_headers (py_format py_repr tok)) (max_pages p) Hpos
                fuel (Fetcher.initial_state (page_size p))) as [r Hr]; [simpl; lia|].
    unfold Fetcher._fetch_mdvm_vulnerabilities, Fetcher.fetch_run. rewrite Hr.
    destruct r as [st2|err]; [|eexists _, _; reflexivity].
    destruct (success_response py_repr (reorganize p) (Fetcher.result_of st2));
      eexists _, _; reflexivity.
Qed.

Lemma handler_always_answers_witness :
  exists r st',
    getMDVMData Reorganizer.no_repr 5 ∅ sample_environ
                TokenCache.sample_env Fetcher.endless TokenCache.empty_state
    = Some (r, st').
Proof.
  destruct (handler_always_answers Reorganizer.no_repr 5 ∅ sample_environ
              TokenCache.sample_env Fetcher.endless TokenCache.empty_state)
    as [_ Hends].
  apply (Hends {| page_size := 10; max_pages := 5; reorganize := true |});
    [reflexivity | simpl; lia].
Defined.

(** X20.  A 200 answer reports a fetch that returned.  Its body is the fetch
    result itself when the reorganize flag is off or no record came back;
    otherwise it is the hierarchy built from the fetched records with the
    counts of the fetch as metadata, and total_vulnerabilities, the number
    of fetched records, is at least the number of entries in the hierarchy. *)
Theorem success_body_matches_the_fetch
        (py_repr : json -> string) (fuel : nat) (params environ : gmap string string)
        (e : TokenCache.env) (api : Fetcher.source) (st st' : TokenCache.state)
        (p : parameters) (resp : HttpResponse) :
  request_parameters params = Ok p ->
  getMDVMData py_repr fuel params environ e api st = Some (Ok resp, st') ->
  http_status resp = 200%Z ->
  exists access_token data,
    Fetcher._fetch_mdvm_vulnerabilities fuel api access_token (page_size p) (max_pages p)
    = Some (Ok data)
    /\ (reorganize p = false \/ Fetcher.vulnerabilities data = [] ->
        http_body resp = Fetched data)
    /\ (reorganize p = true -> Fetcher.vulnerabilities data <> [] ->
        exists h,
          Reorganizer._reorganize_vulnerabilities_by_hierarchy
            py_repr (Fetcher.vulnerabilities data) = Ok h
          /\ http_body resp
             = Reorganized h (length (Fetcher.vulnerabilities data))
                           (Fetcher.result_pages_fetched data)
                           (Fetcher.has_more_data data)
          /\ (Extra.entry_count h <= length (Fetcher.vulnerabilities data))%nat).
Proof.
  intros Hp. unfold getMDVMData. rewrite Hp.
  destruct (load_required environ required_env_vars ∅) as [var|env_config];
    [intros [= <- _]; discriminate|].
  destruct (TokenCache._get_cached_token _ _ _ _ _ st) as [[tok|err] st1];
    [|intros [= <- _] H; pose proof (failure_response_status err) as Hs;
      rewrite H in Hs; simpl in Hs;
      destruct Hs as [Hs | [Hs | []]]; discriminate Hs].
  destruct (Fetcher._fetch_mdvm_vulnerabilities fuel api (py_format py_repr tok)
                                                (page_size p) (max_pages p))
    as [[data|err]|] eqn:Hfetch;
    [| intros [= <- _] H; pose proof (failure_response_status err) as Hs;
       rewrite H in Hs; simpl in Hs;
       destruct Hs as [Hs | [Hs | []]]; discriminate Hs
     | discriminate].
  destruct (success_response py_repr (reorganize p) data) as [resp'|err] eqn:Hsucc;
    [| intros [= <- _] H; pose proof (failure_response_status err) as Hs;
       rewrite H in Hs; simpl in Hs;
       destruct Hs as [Hs | [Hs | []]]; discriminate Hs].
  intros [= <- _] _.
  exists (py_format py_repr tok), data. split; [exact Hfetch|].
  assert (Htotal : Fetcher.total_count data = length (Fetcher.vulnerabilities data)).
  { unfold Fetcher._fetch_mdvm_vulnerabilities in Hfetch.
    destruct (Fetcher.fetch_run _ _ _ _ _) as [[st2|?]|]; try discriminate Hfetch.
    injection Hfetch as <-. reflexivity. }
  unfold success_response in Hsucc. split.
  - intros [Hoff | Hempty].
    + rewrite Hoff in Hsucc. injection Hsucc as <-. reflexivity.
    + rewrite Hempty, andb_false_r in Hsucc. injection Hsucc as <-. reflexivity.
  - intros Hon Hsome. rewrite Hon in Hsucc.
    destruct (Fetcher.vulnerabilities data) as [|v vs] eqn:Hv; [contradiction|].
    simpl in Hsucc.
    destruct (Reorganizer._reorganize_vulnerabilities_by_hierarchy py_repr (v :: vs))
      as [h|err] eqn:Hre; [|discriminate Hsucc].
    injection Hsucc as <-. exists h. rewrite Htotal. simpl.
    split; [reflexivity|]. split; [reflexivity|].
    rewrite (ReorganizerMore.reorganize_from_count
               py_repr (v :: vs) [] h [] ReorganizerFacts.wf_hierarchy_nil);
      [apply (ReorganizerMore.new_paths_le py_repr [] (v :: vs))
      | intros [[? ?] ?]; reflexivity | exact Hre].
Qed.

Lemma success_body_matches_the_fetch_witness :
  exists resp st',
    getMDVMData Reorganizer.no_repr 1 ∅ sample_environ
                TokenCache.sample_env two_records TokenCache.empty_state
    = Some (Ok resp, st')
    /\ exists h,
        http_body resp = Reorganized h 2 1 false /\ (Extra.entry_count h <= 2)%nat.
Proof.
  assert (Hp : request_parameters (∅ : gmap string string)
               = Ok {| page_size := 10; max_pages := 5; reorganize := true |})
    by reflexivity.
  destruct (getMDVMData Reorganizer.no_repr 1 ∅ sample_environ
                        TokenCache.sample_env two_records TokenCache.empty_state)
    as [[[resp|err] st']|] eqn:Hrun; try (vm_compute in Hrun; discriminate Hrun).
  exists resp, st'. split; [reflexivity|].
  assert (Hstatus : http_status resp = 200%Z).
  { vm_compute in Hrun. injection Hrun as <- _. reflexivity. }
  destruct (success_body_matches_the_fetch
              Reorganizer.no_repr 1 ∅ sample_environ
              TokenCache.sample_env two_records TokenCache.empty_state st'
              {| page_size := 10; max_pages := 5; reorganize := true |} resp
              Hp Hrun Hstatus)
    as [tok [data [Hfetch [_ Hre]]]].
  assert (Hdata : data = {| Fetcher.vulnerabilities :=
                              [Reorganizer.desk1_first; Reorganizer.desk1_second];
                            Fetcher.total_count := 2;
                            Fetcher.result_pages_fetched := 1;
                            Fetcher.has_more_data := false |}).
  { injection Hfetch as <-. reflexivity. }
  subst data.
  destruct (Hre eq_refl) as [h [_ [Hbody Hcount]]]; [discriminate|].
  exists h. split; [exact Hbody | exact Hcount].
Defined.

Lemma max_pages_nonneg params p : request_parameters params = Ok p -> (0 <= max_pages p)%Z.
Proof.
  intros Hp. destruct (EntryPointFacts.request_parameters_inv params p Hp)
    as [n [m [_ [_ [_ Hm]]]]]. lia.
Qed.

(** X21.  When the token cannot be had, the handler answers without
    fetching, whatever the API and the fuel: 502 with the message of the
    error when it is a RuntimeError, 500 with the generic message
    otherwise. *)
Theorem token_failure_is_answered_without_fetching
        (py_repr : json -> string) (fuel : nat) (params environ : gmap string string)
        (e : TokenCache.env) (api : Fetcher.source) (st st1 : TokenCache.state)
        (p : parameters) (tenant_id client_id client_secret : string) (err : exn) :
  request_parameters params = Ok p ->
  configured environ tenant_id client_id client_secret ->
  TokenCache._get_cached_token e tenant_id client_id client_secret
                               (resource_of environ) st = (Raise err, st1) ->
  getMDVMData py_repr fuel params environ e api st
  = Some (Ok (failure_response err), st1)
  /\ (forall msg, err = RuntimeError msg ->
      failure_response err = {| http_status := 502; http_body := ErrorBody msg |})
  /\ ((forall msg, err <> RuntimeError msg) ->
      failure_response err
      = {| http_status := 500; http_body := ErrorBody "Internal server error" |}).
Proof.
  intros Hp Hcfg Htoken.
  rewrite (handler_configured py_repr fuel params environ e api st p _ _ _ Hp Hcfg), Htoken.
  split; [reflexivity|]. split.
  - intros msg ->. reflexivity.
  - intros Hnot. destruct err; try reflexivity. exfalso. exact (Hnot msg eq_refl).
Qed.

Lemma token_failure_is_answered_without_fetching_witness :
  getMDVMData Reorganizer.no_repr 0 ∅ sample_environ
              Extra.refusing_env Fetcher.endless TokenCache.empty_state
  = Some (Ok {| http_status := 502;
                http_body :=
                  ErrorBody "Failed to retrieve Entra ID token due to HTTP error." |},
          snd (TokenCache._get_cached_token
                 Extra.refusing_env "contoso" "app-1" "s3cret"
                 "https://api.securitycenter.microsoft.com" TokenCache.empty_state)).
Proof.
  assert (Hp : request_parameters (∅ : gmap string string)
               = Ok {| page_size := 10; max_pages := 5; reorganize := true |})
    by reflexivity.
  assert (Hcfg : configured sample_environ "contoso" "app-1" "s3cret")
    by (repeat split; discriminate).
  destruct (token_failure_is_answered_without_fetching
              Reorganizer.no_repr 0 ∅ sample_environ Extra.refusing_env Fetcher.endless
              TokenCache.empty_state
              (snd (TokenCache._get_cached_token
                      Extra.refusing_env "contoso" "app-1" "s3cret"
                      "https://api.securitycenter.microsoft.com" TokenCache.empty_state))
              _ "contoso" "app-1" "s3cret"
              (RuntimeError "Failed to retrieve Entra ID token due to HTTP error.")
              Hp Hcfg eq_refl) as [Hrun _].
  exact Hrun.
Defined.

(** X22.  Failures of the data API are told apart by kind: when the first
    GET comes back as an HTTP error the handler answers 502 with the
    message for that status, when it fails to connect 502 with the
    connection message, and when the page is malformed (a body that is no
    object, a record list that is null) 500 with the generic message and no
    detail. *)
Theorem api_failure_is_classified
        (py_repr : json -> string) (fuel : nat) (params environ : gmap string string)
        (e : TokenCache.env) (api : Fetcher.source) (st st1 : TokenCache.state)
        (p : parameters) (tenant_id client_id client_secret : string) (tok : json) :
  request_parameters params = Ok p ->
  configured environ tenant_id client_id client_secret ->
  TokenCache._get_cached_token e tenant_id client_id client_secret
                               (resource_of environ) st = (Ok tok, st1) ->
  (forall resp,
      api [] (Fetcher.next_request
                (Fetcher.request_headers (py_format py_repr tok))
                (Fetcher.initial_state (page_size p)))
      = HttpError resp ->
      getMDVMData py_repr (S fuel) params environ e api st
      = Some (Ok {| http_status := 502;
                    http_body := ErrorBody (Fetcher.http_error_message resp) |}, st1))
  /\ (api [] (Fetcher.next_request
                (Fetcher.request_headers (py_format py_repr tok))
                (Fetcher.initial_state (page_size p)))
      = RequestFailed ->
      getMDVMData py_repr (S fuel) params environ e api st
      = Some (Ok {| http_status := 502;
                    http_body := ErrorBody "Failed to connect to MDVM API." |}, st1))
  /\ (forall payload,
        api [] (Fetcher.next_request
                  (Fetcher.request_headers (py_format py_repr tok))
                  (Fetcher.initial_state (page_size p)))
        = Success payload ->
        (forall response_data, payload <> JObj response_data)
        \/ (exists response_data,
              payload = JObj response_data
              /\ dict_get response_data "value" = Some JNull) ->
        getMDVMData py_repr (S fuel) params environ e api st
        = Some (Ok {| http_status := 500;
                      http_body := ErrorBody "Internal server error" |}, st1)).
Proof.
  intros Hp Hcfg Htoken.
  rewrite (handler_configured py_repr (S fuel) params environ e api st p _ _ _ Hp Hcfg),
    Htoken.
  pose proof (max_pages_nonneg params p Hp) as Hnonneg.
  assert (Htest : Fetcher.loop_test (max_pages p) (Fetcher.initial_state (page_size p))
                  = true).
  { unfold Fetcher.loop_test. simpl. apply orb_true_iff.
    destruct (Z.eq_dec (max_pages p) 0%Z) as [-> | Hne];
      [left; reflexivity | right; apply Z.ltb_lt; lia]. }
  assert (Hfail : forall err,
             Fetcher.fetch_page api (Fetcher.request_headers (py_format py_repr tok))
                                (Fetcher.initial_state (page_size p)) = Raise err ->
             Fetcher._fetch_mdvm_vulnerabilities
               (S fuel) api (py_format py_repr tok) (page_size p) (max_pages p)
             = Some (Raise err)).
  { intros err Hpage. unfold Fetcher._fetch_mdvm_vulnerabilities, Fetcher.fetch_run.
    rewrite (FetcherMore.fetch_loop_error _ _ _ fuel _ err Htest Hpage). reflexivity. }
  split; [|split].
  - intros resp Hresp. rewrite (Hfail (RuntimeError (Fetcher.http_error_message resp)));
      [reflexivity|].
    unfold Fetcher.fetch_page. simpl Fetcher.requests. rewrite Hresp. reflexivity.
  - intros Hresp. rewrite (Hfail (RuntimeError "Failed to connect to MDVM API."));
      [reflexivity|].
    unfold Fetcher.fetch_page. simpl Fetcher.requests. rewrite Hresp. reflexivity.
  - intros payload Hresp [Hnot | [response_data [-> Hvalue]]].
    + rewrite (Hfail AttributeError); [reflexivity|].
      unfold Fetcher.fetch_page. simpl Fetcher.requests. rewrite Hresp.
      destruct payload as [| | | | | |response_data]; try reflexivity.
      exfalso. exact (Hnot response_data eq_refl).
    + rewrite (Hfail TypeError); [reflexivity|].
      unfold Fetcher.fetch_page. simpl Fetcher.requests. rewrite Hresp.
      unfold dict_get_or at 1. rewrite Hvalue. reflexivity.
Qed.

Lemma api_failure_is_classified_witness :
  getMDVMData Reorganizer.no_repr 1 ∅ sample_environ
              TokenCache.sample_env Extra.null_value TokenCache.empty_state
  = Some (Ok {| http_status := 500; http_body := ErrorBody "Internal server error" |},
          snd (TokenCache._get_cached_token
                 TokenCache.sample_env "contoso" "app-1" "s3cret"
                 "https://api.securitycenter.microsoft.com" TokenCache.empty_state)).
Proof.
  assert (Hp : request_parameters (∅ : gmap string string)
               = Ok {| page_size := 10; max_pages := 5; reorganize := true |})
    by reflexivity.
  assert (Hcfg : configured sample_environ "contoso" "app-1" "s3cret")
    by (repeat split; discriminate).
  destruct (api_failure_is_classified
              Reorganizer.no_repr 0 ∅ sample_environ TokenCache.sample_env
              Extra.null_value TokenCache.empty_state
              (snd (TokenCache._get_cached_token
                      TokenCache.sample_env "contoso" "app-1" "s3cret"
                      "https://api.securitycenter.microsoft.com" TokenCache.empty_state))
              _ "contoso" "app-1" "s3cret" (JStr "tok-1") Hp Hcfg eq_refl)
    as [_ [_ Hbad]].
  apply (Hbad (JObj [("value", JNull)]) eq_refl).
  right. exists [("value", JNull)]. split; reflexivity.
Defined.

(** X23.  A record that cannot be filed only matters when reorganizing: for
    a fetch that returned records one of which is no mapping, or has a list
    or an object as a key field, the handler answers 500 with the generic
    message when the reorganize flag is on, and 200 with the records as
    fetched when it is off. *)
Theorem unfilable_record_fails_only_when_reorganizing
        (py_repr : json -> string) (fuel : nat) (params environ : gmap string string)
        (e : TokenCache.env) (api : Fetcher.source) (st st1 : TokenCache.state)
        (p : parameters) (tenant_id client_id client_secret : string) (tok : json)
        (data : Fetcher.fetch_result) (good : list json) (bad : json) (rest : list json) :
  request_parameters params = Ok p ->
  configured environ tenant_id client_id client_secret ->
  TokenCache._get_cached_token e tenant_id client_id client_secret
                               (resource_of environ) st = (Ok tok, st1) ->
  Fetcher._fetch_mdvm_vulnerabilities fuel api (py_format py_repr tok)
                                      (page_size p) (max_pages p) = Some (Ok data) ->
  Fetcher.vulnerabilities data = good ++ bad :: rest ->
  forallb (Reorganizer.well_typed_record py_repr) good = true ->
  Reorganizer.well_typed_record py_repr bad = false ->
  (reorganize p = true ->
   getMDVMData py_repr fuel params environ e api st
   = Some (Ok {| http_status := 500; http_body := ErrorBody "Internal server error" |},
           st1))
  /\ (reorganize p = false ->
      getMDVMData py_repr fuel params environ e api st
      = Some (Ok {| http_status := 200; http_body := Fetched data |}, st1)).
Proof.
  intros Hp Hcfg Htoken Hfetch Hdata Hgood Hbad.
  rewrite (handler_configured py_repr fuel params environ e api st p _ _ _ Hp Hcfg),
    Htoken, Hfetch.
  unfold success_response. split.
  - intros Hon. rewrite Hon, Hdata.
    assert (Hnonempty : match good ++ bad :: rest with [] => false | _ :: _ => true end
                        = true) by (destruct good; reflexivity).
    rewrite Hnonempty. simpl andb. cbv iota.
    pose proof (ReorganizerMore.reorganize_from_first_failure
                  py_repr (good ++ bad :: rest) []) as Hfail.
    assert (Hfirst : exists err,
               Extra.first_failure py_repr (good ++ bad :: rest) = Some err
               /\ (err = TypeError \/ err = AttributeError)).
    { clear Hfail Hdata Hnonempty. induction good as [|g good IH]; simpl.
      - rewrite Hbad. destruct bad; eauto.
      - simpl in Hgood. apply andb_prop in Hgood as [Hg Hgood]. rewrite Hg.
        destruct g as [| | | | |?|fields]; try discriminate Hg.
        apply IH, Hgood. }
    destruct Hfirst as [err [Hfirst Herr]]. rewrite Hfirst in Hfail.
    unfold Reorganizer._reorganize_vulnerabilities_by_hierarchy. rewrite Hfail. simpl.
    destruct Herr as [-> | ->]; reflexivity.
  - intros Hoff. rewrite Hoff. reflexivity.
Qed.

Lemma unfilable_record_fails_only_when_reorganizing_witness :
  getMDVMData Reorganizer.no_repr 1 {[ "reorganize" := "no" ]} sample_environ
              TokenCache.sample_env bad_record TokenCache.empty_state
  = Some (Ok {| http_status := 200;
                http_body :=
                  Fetched {| Fetcher.vulnerabilities := [JStr "not a record"];
                             Fetcher.total_count := 1;
                             Fetcher.result_pages_fetched := 1;
                             Fetcher.has_more_data := false |} |},
          snd (TokenCache._get_cached_token
                 TokenCache.sample_env "contoso" "app-1" "s3cret"
                 "https://api.securitycenter.microsoft.com" TokenCache.empty_state)).
Proof.
  assert (Hp : request_parameters ({[ "reorganize" := "no" ]} : gmap string string)
               = Ok {| page_size := 10; max_pages := 5; reorganize := false |})
    by reflexivity.
  assert (Hcfg : configured sample_environ "contoso" "app-1" "s3cret")
    by (repeat split; discriminate).
  destruct (unfilable_record_fails_only_when_reorganizing
              Reorganizer.no_repr 1 {[ "reorganize" := "no" ]} sample_environ
              TokenCache.sample_env bad_record TokenCache.empty_state
              (snd (TokenCache._get_cached_token
                      TokenCache.sample_env "contoso" "app-1" "s3cret"
                      "https://api.securitycenter.microsoft.com" TokenCache.empty_state))
              _ "contoso" "app-1" "s3cret" (JStr "tok-1")
              {| Fetcher.vulnerabilities := [JStr "not a record"];
                 Fetcher.total_count := 1;
                 Fetcher.result_pages_fetched := 1;
                 Fetcher.has_more_data := false |}
              [] (JStr "not a record") [] Hp Hcfg eq_refl eq_refl eq_refl eq_refl eq_refl)
    as [_ Hoff].
  apply Hoff. reflexivity.
Defined.

(** X24.  While the cache holds a fresh token for the configured credentials
    a request is served without the identity provider: whatever the handler
    answers, no token request is posted and the cache is unchanged. *)
Theorem fresh_token_spares_the_provider
        (py_repr : json -> string) (fuel : nat) (params environ : gmap string string)
        (e : TokenCache.env) (api : Fetcher.source) (st st' : TokenCache.state)
        (p : parameters) (tenant_id client_id client_secret : string)
        (entry : TokenCache.token_entry) (r : result HttpResponse) :
  request_parameters params = Ok p ->
  configured environ tenant_id client_id client_secret ->
  TokenCache.token_cache st
    !! TokenCache.cache_key_of tenant_id client_id (resource_of environ) = Some entry ->
  (TokenCache.clock e (TokenCache.clock_reads st) + 300 < TokenCache.expires_at entry)%Q ->
  getMDVMData py_repr fuel params environ e api st = Some (r, st') ->
  TokenCache.token_requests st' = TokenCache.token_requests st
  /\ TokenCache.token_cache st' = TokenCache.token_cache st.
Proof.
  intros Hp Hcfg Hentry Hfresh.
  rewrite (handler_configured py_repr fuel params environ e api st p _ _ _ Hp Hcfg).
  rewrite (TokenCacheFacts.get_cached_token_hit e _ _ _ _ st entry Hentry Hfresh).
  destruct (Fetcher._fetch_mdvm_vulnerabilities _ _ _ _ _) as [[data|err]|];
    [| |discriminate].
  - destruct (success_response py_repr (reorganize p) data);
      intros [= _ <-]; split; reflexivity.
  - intros [= _ <-]; split; reflexivity.
Qed.

Lemma fresh_token_spares_the_provider_witness :
  exists r st',
    getMDVMData Reorganizer.no_repr 1 ∅ sample_environ
                TokenCache.sample_env two_records warm_state = Some (r, st')
    /\ TokenCache.token_requests st' = [].
Proof.
  assert (Hp : request_parameters (∅ : gmap string string)
               = Ok {| page_size := 10; max_pages := 5; reorganize := true |})
    by reflexivity.
  assert (Hcfg : configured sample_environ "contoso" "app-1" "s3cret")
    by (repeat split; discriminate).
  destruct (getMDVMData Reorganizer.no_repr 1 ∅ sample_environ
                        TokenCache.sample_env two_records warm_state)
    as [[r st']|] eqn:Hrun; [|vm_compute in Hrun; discriminate Hrun].
  exists r, st'. split; [reflexivity|].
  destruct (fresh_token_spares_the_provider
              Reorganizer.no_repr 1 ∅ sample_environ TokenCache.sample_env two_records
              warm_state st'
              {| page_size := 10; max_pages := 5; reorganize := true |}
              "contoso" "app-1" "s3cret"
              {| TokenCache.token := JStr "warm"; TokenCache.expires_at := 9000 |} r
              Hp Hcfg) as [Hreqs _]; [reflexivity | vm_compute; reflexivity | exact Hrun|].
  exact Hreqs.
Defined.

End HandlerFacts.
